(** * MaxProject: the storage module of the event-attendee directory

    A shallow embedding of [src/storage.py]: the JSON record store, the
    event catalog ([create_event], [update_event], [delete_event]), the
    attendance ledger ([upsert_attendance]) and the visibility and
    ranking engine ([list_visible_attendees]), followed by the
    properties of the specification that are settled against it.

    Modelling conventions.
    - A JSON record (a Python [dict] with string keys) is a
      [gmap string value]; [value] covers the JSON scalars and lists
      that the store holds.  Floats and objects nested inside a field
      are outside the model.
    - Text is a Rocq [string] read as a sequence of code points below
      256; the character operations ([lower], [isalnum], [strip],
      [repr]) are Python's on that range.
    - The snapshot file is a field of [world]; every call of
      [write_data] is recorded in a log, so that "no write happened"
      and "exactly one write happened" can be stated.
    - [now_iso ()] reads the wall clock: the timestamp it returns is an
      argument of [upsert_attendance]. *)

From Stdlib Require Import ZArith String Ascii List Lia DecimalString.
From stdpp Require Import base option list sorting strings gmap.

Set Warnings "-register-all,-clear-no-such-hyp".

(** ** Python values *)

Inductive value : Type :=
| VNone
| VBool (b : bool)
| VInt (n : Z)
| VStr (s : string)
| VList (l : list value).

#[global] Instance value_inhabited : Inhabited value := populate VNone.

#[global] Instance value_eq_dec : EqDecision value.
Proof.
  refine (fix go (x y : value) {struct x} : Decision (x = y) :=
    match x, y with
    | VNone, VNone => left _
    | VBool a, VBool b => cast_if (decide (a = b))
    | VInt a, VInt b => cast_if (decide (a = b))
    | VStr a, VStr b => cast_if (decide (a = b))
    | VList a, VList b => cast_if (@list_eq_dec _ go a b)
    | _, _ => right _
    end); clear go; abstract congruence.
Defined.

Abbreviation dict := (gmap string value).

(** [d.get(k)] and [d.get(k, dflt)] *)
Definition get (d : dict) (k : string) : value := default VNone (d !! k).
Definition get_or (d : dict) (k : string) (dflt : value) : value :=
  default dflt (d !! k).

Module Py.

(** *** Characters

    A character is a code point below 256; the tables are those of
    Python's [str] methods on that range. *)

Definition code (c : ascii) : nat := nat_of_ascii c.

Definition in_range (lo hi : nat) (c : ascii) : bool :=
  (lo <=? code c) && (code c <=? hi).

(** [c.isupper()]: [A]-[Z], and the capital letters [0xC0]-[0xDE] but
    for the multiplication sign [0xD7]. *)
Definition is_upper (c : ascii) : bool :=
  in_range 65 90 c || in_range 192 214 c || in_range 216 222 c.

(** The letters [a]-[z] and the digits [0]-[9]. *)
Definition is_lower (c : ascii) : bool := in_range 97 122 c.
Definition is_digit (c : ascii) : bool := in_range 48 57 c.

(** [c.isascii()] *)
Definition is_ascii (c : ascii) : bool := code c <? 128.

(** [c.isalnum()]: besides the ASCII letters and digits, the ordinal
    indicators, the micro sign, the superscript digits, the vulgar
    fractions and the accented letters. *)
Definition isalnum (c : ascii) : bool :=
  in_range 48 57 c || in_range 65 90 c || in_range 97 122 c ||
  in_range 170 170 c || in_range 178 179 c || in_range 181 181 c ||
  in_range 185 186 c || in_range 188 190 c ||
  in_range 192 214 c || in_range 216 246 c || in_range 248 255 c.

(** [c.isspace()], the characters [strip()] removes: tab, line feed,
    vertical tab, form feed, carriage return, the four separators
    [0x1c]-[0x1f], the space, the next-line control [0x85] and the
    no-break space [0xa0]. *)
Definition isspace (c : ascii) : bool :=
  in_range 9 13 c || in_range 28 32 c || in_range 133 133 c || in_range 160 160 c.

(** [c.lower()] *)
Definition lower_char (c : ascii) : ascii :=
  if is_upper c then ascii_of_nat (code c + 32) else c.

(** *** Strings *)

Fixpoint map_chars (f : ascii -> ascii) (s : string) : string :=
  match s with
  | EmptyString => EmptyString
  | String c s' => String (f c) (map_chars f s')
  end.

(** [s.lower()] *)
Definition lower (s : string) : string := map_chars lower_char s.

Fixpoint lstrip_with (p : ascii -> bool) (s : string) : string :=
  match s with
  | EmptyString => EmptyString
  | String c s' => if p c then lstrip_with p s' else s
  end.

Fixpoint rstrip_with (p : ascii -> bool) (s : string) : string :=
  match s with
  | EmptyString => EmptyString
  | String c s' =>
      match rstrip_with p s' with
      | EmptyString => if p c then EmptyString else String c EmptyString
      | r => String c r
      end
  end.

(** [s.strip()] and [s.strip(chars)] for a one-character [chars] *)
Definition strip_with (p : ascii -> bool) (s : string) : string :=
  rstrip_with p (lstrip_with p s).
Definition strip (s : string) : string := strip_with isspace s.
Definition strip_char (c : ascii) (s : string) : string :=
  strip_with (Ascii.eqb c) s.

(** [sub in s] *)
Fixpoint contains (sub s : string) : bool :=
  String.prefix sub s ||
  match s with
  | EmptyString => false
  | String _ s' => contains sub s'
  end.

(** [s.replace("--", "-")]: the occurrences are found from the left
    and do not overlap. *)
Fixpoint replace_dashes (s : string) : string :=
  match s with
  | EmptyString => EmptyString
  | String c s' =>
      match s' with
      | String c' s'' =>
          if Ascii.eqb c "-" && Ascii.eqb c' "-"
          then String "-" (replace_dashes s'')
          else String c (replace_dashes s')
      | EmptyString => String c EmptyString
      end
  end.

(** [s.split(sep)] for a one-character separator; never empty. *)
Fixpoint split (sep : ascii) (s : string) : list string :=
  match s with
  | EmptyString => [EmptyString]
  | String c s' =>
      if Ascii.eqb c sep then EmptyString :: split sep s'
      else match split sep s' with
           | h :: t => String c h :: t
           | [] => [String c EmptyString]
           end
  end.

Definition chars (s : string) : list string :=
  map (fun c => String c EmptyString) (list_ascii_of_string s).

(** *** Dynamic values *)

(** [bool(v)] *)
Definition truthy (v : value) : bool :=
  match v with
  | VNone => false
  | VBool b => b
  | VInt n => negb (n =? 0)%Z
  | VStr s => negb (String.eqb s "")
  | VList l => match l with [] => false | _ => true end
  end.

(** [a or b] *)
Definition or (a b : value) : value := if truthy a then a else b.

(** [a == b]; a [bool] compares as the integer 0 or 1. *)
Fixpoint eq (a b : value) {struct a} : bool :=
  match a, b with
  | VNone, VNone => true
  | VBool x, VBool y => Bool.eqb x y
  | VBool x, VInt y => (Z.b2z x =? y)%Z
  | VInt x, VBool y => (x =? Z.b2z y)%Z
  | VInt x, VInt y => (x =? y)%Z
  | VStr x, VStr y => String.eqb x y
  | VList x, VList y =>
      (fix go (l1 l2 : list value) {struct l1} : bool :=
         match l1, l2 with
         | [], [] => true
         | v1 :: t1, v2 :: t2 => eq v1 v2 && go t1 t2
         | _, _ => false
         end) x y
  | _, _ => false
  end.

Definition hex_digit (n : nat) : ascii :=
  if n <? 10 then ascii_of_nat (48 + n) else ascii_of_nat (87 + n).

Definition quote : ascii := "'".
Definition dquote : ascii := ascii_of_nat 34.
Definition backslash : ascii := ascii_of_nat 92.

Definition has_char (c : ascii) (s : string) : bool :=
  contains (String c EmptyString) s.

Fixpoint escape (q : ascii) (s : string) : string :=
  match s with
  | EmptyString => EmptyString
  | String c s' =>
      let rest := escape q s' in
      if Ascii.eqb c q || Ascii.eqb c backslash then String backslash (String c rest)
      else if code c =? 9 then String backslash (String "t" rest)
      else if code c =? 10 then String backslash (String "n" rest)
      else if code c =? 13 then String backslash (String "r" rest)
      else if (code c <? 32) || in_range 127 160 c || (code c =? 173) then
        String backslash (String "x"
          (String (hex_digit (code c / 16)) (String (hex_digit (code c mod 16)) rest)))
      else String c rest
  end.

(** [repr(s)] of a string *)
Definition repr_str (s : string) : string :=
  let q := if has_char quote s && negb (has_char dquote s) then dquote else quote in
  String q (escape q s +:+ String q EmptyString).

Definition str_int (n : Z) : string := NilZero.string_of_int (Z.to_int n).

(** [repr(v)] *)
Fixpoint repr (v : value) : string :=
  match v with
  | VNone => "None"
  | VBool true => "True"
  | VBool false => "False"
  | VInt n => str_int n
  | VStr s => repr_str s
  | VList l => "[" +:+ String.concat ", " (map repr l) +:+ "]"
  end.

(** [str(v)] *)
Definition str (v : value) : string :=
  match v with
  | VStr s => s
  | _ => repr v
  end.

End Py.

(** ** The record store and its snapshot file *)

Record store : Type := Store {
  events : list dict;
  users : list dict;
  attendances : list dict;
  side_events : list dict;
  meeting_requests : list dict
}.

Definition _default_data : store := Store [] [] [] [] [].

Definition set_events (d : store) (l : list dict) : store :=
  Store l (users d) (attendances d) (side_events d) (meeting_requests d).
Definition set_attendances (d : store) (l : list dict) : store :=
  Store (events d) (users d) l (side_events d) (meeting_requests d).
Definition set_side_events (d : store) (l : list dict) : store :=
  Store (events d) (users d) (attendances d) l (meeting_requests d).
Definition set_meeting_requests (d : store) (l : list dict) : store :=
  Store (events d) (users d) (attendances d) (side_events d) l.

(** [data_file] is the content of [DATA_FILE] ([None]: the file does not
    exist); [write_log] lists the snapshots handed to [write_data], the
    latest first. *)
Record world : Type := World {
  data_file : option store;
  write_log : list store
}.

Inductive exn : Type :=
| ValueError (msg : string)
| TypeError (msg : string).

Inductive outcome (A : Type) : Type :=
| Ok (a : A)
| Raise (e : exn).
Arguments Ok {A} a.
Arguments Raise {A} e.

(** Computations that read and write the snapshot file and may raise. *)
Definition M (A : Type) : Type := world -> outcome A * world.

Definition ret {A} (a : A) : M A := fun w => (Ok a, w).
Definition raise {A} (e : exn) : M A := fun w => (Raise e, w).
Definition bind {A B} (m : M A) (k : A -> M B) : M B :=
  fun w => match m w with
           | (Ok a, w') => k a w'
           | (Raise e, w') => (Raise e, w')
           end.

Declare Scope py_scope.
Delimit Scope py_scope with py.
Notation "x <- m ;; k" := (bind m (fun x => k))
  (at level 100, m at next level, right associativity) : py_scope.
Notation "m ;;; k" := (bind m (fun _ => k))
  (at level 100, right associativity) : py_scope.

Definition read_data : M store :=
  fun w => (Ok (default _default_data (data_file w)), w).

Definition write_data (d : store) : M unit :=
  fun w => (Ok tt, World (Some d) (d :: write_log w)).

Definition FREE_ATTENDEE_LIMIT : nat := 25.
Definition PRO_ATTENDEE_LIMIT : nat := 500.

(** ** Helpers shared by the operations *)

(** [bool(d)] of a record: a [dict] is false exactly when it is empty. *)
Definition dict_truthy (d : dict) : bool := negb (bool_decide (d = ∅)).

(** [d.update(upd)] *)
Definition dict_update (d upd : dict) : dict := upd ∪ d.

(** [str(event.get("slug")) == slug] *)
Definition slug_is (slug : string) (event : dict) : bool :=
  String.eqb (Py.str (get event "slug")) slug.

(** [a.get("event_slug") == slug] *)
Definition of_event (slug : string) (a : dict) : bool :=
  Py.eq (get a "event_slug") (VStr slug).

(** [[token.strip() for token in s.split(",") if token.strip()]] *)
Definition parse_tags (s : string) : list value :=
  map VStr (filter (λ tok, tok ≠ "") (map Py.strip (Py.split "," s))).

(** [type(v).__name__] *)
Definition type_name (v : value) : string :=
  match v with
  | VNone => "NoneType"
  | VBool _ => "bool"
  | VInt _ => "int"
  | VStr _ => "str"
  | VList _ => "list"
  end.

(** The strings of a list for [join], or the position and the value of
    its first item that is not a string. *)
Fixpoint join_items (i : nat) (l : list value) : (nat * value) + list string :=
  match l with
  | [] => inr []
  | VStr s :: l' =>
      match join_items (S i) l' with
      | inr ss => inr (s :: ss)
      | inl bad => inl bad
      end
  | v :: _ => inl (i, v)
  end.

(** [sep.join(v)]: [v] has to be iterable and to yield strings; a string
    iterates over its characters. *)
Definition py_join (sep : string) (v : value) : M string :=
  match v with
  | VList l =>
      match join_items 0 l with
      | inr ss => ret (String.concat sep ss)
      | inl (i, bad) =>
          raise (TypeError ("sequence item " +:+ Py.str_int (Z.of_nat i)
                            +:+ ": expected str instance, " +:+ type_name bad
                            +:+ " found"))
      end
  | VStr s => ret (String.concat sep (Py.chars s))
  | _ => raise (TypeError "can only join an iterable")
  end.

(** ** Event catalog *)

(** The [while "--" in safe] loop of [_slugify]; every round removes at
    least one character, so [String.length safe] rounds are enough
    (lemma [collapse_dashes_done]). *)
Fixpoint collapse_dashes (fuel : nat) (safe : string) : string :=
  match fuel with
  | O => safe
  | S fuel' =>
      if Py.contains "--" safe
      then collapse_dashes fuel' (Py.replace_dashes safe)
      else safe
  end.

Definition _slugify (value : string) : string :=
  let safe :=
    Py.map_chars (λ char, if Py.isalnum char then Py.lower_char char else "-"%char)
                 (Py.strip value) in
  let safe := collapse_dashes (String.length safe) safe in
  Py.strip_char "-" safe.

(** [str(payload.get(k, "")).strip()] *)
Definition text_field (payload : dict) (k : string) : string :=
  Py.strip (Py.str (get_or payload k (VStr ""))).

(** The record [event] that [create_event] builds from the payload. *)
Definition new_event (slug : string) (payload : dict) : dict :=
  list_to_map
    [ ("slug", VStr slug);
      ("name", VStr (text_field payload "name"));
      ("description", VStr (text_field payload "description"));
      ("website_url", VStr (text_field payload "website_url"));
      ("start_at", VStr (text_field payload "start_at"));
      ("end_at", VStr (text_field payload "end_at"));
      ("city", VStr (text_field payload "city"));
      ("country", VStr (text_field payload "country"));
      ("tags", VList (parse_tags (Py.str (get_or payload "tags" (VStr ""))))) ].

Definition create_event (payload : dict) : M dict :=
  (data <- read_data ;;
   let slug :=
     _slugify (Py.str (Py.or (Py.or (get payload "slug") (get payload "name")) (VStr ""))) in
   if String.eqb slug "" then raise (ValueError "Slug or name is required")
   else if existsb (slug_is slug) (events data)
   then raise (ValueError "Event slug already exists")
   else
     let event := new_event slug payload in
     if negb (Py.truthy (get event "name")) then raise (ValueError "Event name is required")
     else
       write_data (set_events data (events data ++ [event])) ;;;
       ret event)%py.

(** [str(payload.get(k, found.get(k, ""))).strip()] *)
Definition patch_field (payload found : dict) (k : string) : string :=
  Py.strip (Py.str (get_or payload k (get_or found k (VStr "")))).

(** The cascade of a rename over one attendance row. *)
Definition rename_row (slug new_slug : string) (attendance : dict) : dict :=
  if of_event slug attendance
  then <["event_slug" := VStr new_slug]> attendance
  else attendance.

(** [found] aliases the first event of [data["events"]] with the slug:
    updating it updates the list at that index. *)
Definition update_event (slug : string) (payload : dict) : M dict :=
  (data <- read_data ;;
   match list_find (λ event, slug_is slug event) (events data) with
   | None => raise (ValueError "Event not found")
   | Some (i, found) =>
       let new_slug := _slugify (Py.str (Py.or (get payload "slug") (VStr slug))) in
       if negb (String.eqb new_slug slug) && existsb (slug_is new_slug) (events data)
       then raise (ValueError "Event slug already exists")
       else
         joined <- py_join "," (get_or found "tags" (VList [])) ;;
         let found' :=
           dict_update found
             (list_to_map
                [ ("slug", VStr new_slug);
                  ("name", VStr (patch_field payload found "name"));
                  ("description", VStr (patch_field payload found "description"));
                  ("website_url", VStr (patch_field payload found "website_url"));
                  ("start_at", VStr (patch_field payload found "start_at"));
                  ("end_at", VStr (patch_field payload found "end_at"));
                  ("city", VStr (patch_field payload found "city"));
                  ("country", VStr (patch_field payload found "country"));
                  ("tags", VList (parse_tags (Py.str (get_or payload "tags" (VStr joined))))) ]) in
         let data := set_events data (<[i := found']> (events data)) in
         let data :=
           if negb (String.eqb new_slug slug)
           then set_attendances data (map (rename_row slug new_slug) (attendances data))
           else data in
         write_data data ;;;
         ret found'
   end)%py.

Definition delete_event (slug : string) : M unit :=
  (data <- read_data ;;
   let before := length (events data) in
   let data := set_events data (filter (λ event, negb (slug_is slug event)) (events data)) in
   if length (events data) =? before then raise (ValueError "Event not found")
   else
     let data := set_attendances data
                   (filter (λ a, negb (of_event slug a)) (attendances data)) in
     let data := set_side_events data
                   (filter (λ s, negb (of_event slug s)) (side_events data)) in
     let data := set_meeting_requests data
                   (filter (λ m, negb (of_event slug m)) (meeting_requests data)) in
     write_data data)%py.

(** ** Viewers and tiers *)

(** [viewer and p(viewer)]: an absent viewer and an empty record are
    both false. *)
Definition viewer_and (viewer : option dict) (p : dict -> bool) : bool :=
  match viewer with
  | Some v => dict_truthy v && p v
  | None => false
  end.

Definition is_admin (v : dict) : bool := Py.eq (get v "role") (VStr "ADMIN").

Definition active_pro (v : dict) : bool :=
  Py.eq (get v "plan") (VStr "PRO") && Py.eq (get v "subscription_status") (VStr "ACTIVE").

Definition can_view_verified_only (viewer : option dict) : bool :=
  match viewer with
  | None => false
  | Some v =>
      if negb (dict_truthy v) then false
      else if is_admin v then true
      else if Py.truthy (get v "verified_email_domain") then true
      else active_pro v
  end.

Definition attendee_limit (viewer : option dict) : nat :=
  if viewer_and viewer (λ v, is_admin v || active_pro v)
  then PRO_ATTENDEE_LIMIT
  else FREE_ATTENDEE_LIMIT.

(** ** Attendance ledger *)

(** [row.get("event_slug") == event_slug and row.get("user_id") == user_id] *)
Definition row_is (event_slug user_id : string) (row : dict) : bool :=
  of_event event_slug row && Py.eq (get row "user_id") (VStr user_id).

Definition valid_states : gset string := {[ "INTERESTED"; "ATTENDING" ]}.
Definition valid_visibilities : gset string := {[ "PUBLIC"; "VERIFIED_ONLY"; "PRIVATE" ]}.

(** [{"state": state, "visibility": visibility, "updated_at": now}] *)
Definition attendance_patch (state visibility now : string) : dict :=
  list_to_map [ ("state", VStr state); ("visibility", VStr visibility);
                ("updated_at", VStr now) ].

(** The row [created] for a pair without one. *)
Definition new_attendance (event_slug user_id state visibility now : string) : dict :=
  list_to_map [ ("event_slug", VStr event_slug); ("user_id", VStr user_id);
                ("state", VStr state); ("visibility", VStr visibility);
                ("updated_at", VStr now) ].

(** [now] is the value of [now_iso ()] at the call. [existing] aliases
    the first matching row of [data["attendances"]]. *)
Definition upsert_attendance (now : string)
    (event_slug user_id state visibility : string) : M dict :=
  (if negb (bool_decide (state ∈ valid_states))
   then raise (ValueError "Invalid attendance state")
   else if negb (bool_decide (visibility ∈ valid_visibilities))
   then raise (ValueError "Invalid attendance visibility")
   else
     data <- read_data ;;
     if negb (existsb (slug_is event_slug) (events data))
     then raise (ValueError "Event not found")
     else
       let existing := list_find (λ row, row_is event_slug user_id row) (attendances data) in
       let updated i row : M dict :=
         let row' := dict_update row (attendance_patch state visibility now) in
         write_data (set_attendances data (<[i := row']> (attendances data))) ;;;
         ret row' in
       let inserted : M dict :=
         let created := new_attendance event_slug user_id state visibility now in
         write_data (set_attendances data (attendances data ++ [created])) ;;;
         ret created in
       match existing with
       | Some (i, row) => if dict_truthy row then updated i row else inserted
       | None => inserted
       end)%py.

(** ** Visibility and ranking engine *)

(** Order of the sort keys: Python compares the tuples
    [(str, str)] component by component, strings by code point. *)
Definition key_compare (a b : string * string) : comparison :=
  match String.compare a.1 b.1 with
  | Eq => String.compare a.2 b.2
  | c => c
  end.

Definition key_ltb (a b : string * string) : bool :=
  match key_compare a b with Lt => true | _ => false end.

(** [key_leb a b]: [a <= b] on keys. *)
Definition key_leb (a b : string * string) : bool := negb (key_ltb b a).

Section Sort.
Context {A : Type} (key : A -> string * string).

(** [insert_desc x l] puts [x] in front of the first element whose
    key is not greater: ahead of the elements with an equal key. *)
Fixpoint insert_desc (x : A) (l : list A) : list A :=
  match l with
  | [] => [x]
  | y :: l' => if key_ltb (key x) (key y) then y :: insert_desc x l' else x :: l
  end.

(** [l.sort(key=key, reverse=True)]: descending, and stable (elements
    with equal keys keep their original order). *)
Definition sort_desc (l : list A) : list A := foldr insert_desc [] l.
End Sort.

(** [desc key x y]: [x] may stand before [y] in a descending list. *)
Definition desc {A : Type} (key : A -> string * string) (x y : A) : Prop :=
  key_leb (key y) (key x) = true.

(** [(str(a.get("updated_at", "")), str(a.get("user_id", "")))] *)
Definition attendance_key (a : dict) : string * string :=
  (Py.str (get_or a "updated_at" (VStr "")), Py.str (get_or a "user_id" (VStr ""))).

(** [{str(user.get("id")): user for user in users}]: a later user
    replaces an earlier one with the same key. *)
Definition users_by_id (us : list dict) : gmap string dict :=
  foldl (λ m user, <[Py.str (get user "id") := user]> m) ∅ us.

(** [x or ""] for an optional string argument *)
Definition opt_or_empty (x : option string) : string :=
  match x with
  | Some s => if String.eqb s "" then "" else s
  | None => ""
  end.

(** The filter a request parameter stands for, [(x or "").strip().lower()] *)
Definition needle (x : option string) : string := Py.lower (Py.strip (opt_or_empty x)).

(** The disclosure decision of the loop body (the [can_see] variable). *)
Definition can_see (viewer : option dict) (row : dict) : bool :=
  let visibility := get row "visibility" in
  if viewer_and viewer is_admin then true
  else if Py.eq visibility (VStr "PUBLIC") then true
  else if Py.eq visibility (VStr "VERIFIED_ONLY") then can_view_verified_only viewer
  else if Py.eq visibility (VStr "PRIVATE")
       then viewer_and viewer (λ v, Py.eq (get v "id") (get row "user_id"))
  else false.

(** [state and row.get("state") != state] *)
Definition state_mismatch (state : option string) (row : dict) : bool :=
  match state with
  | Some s => negb (String.eqb s "") && negb (Py.eq (get row "state") (VStr s))
  | None => false
  end.

(** [c and c not in str(user.get(field, "")).lower()] *)
Definition text_mismatch (c field : string) (user : dict) : bool :=
  negb (String.eqb c "") &&
  negb (Py.contains c (Py.lower (Py.str (get_or user field (VStr ""))))).

(** The disclosure record appended for a surviving row. *)
Definition disclosure (row user : dict) : dict :=
  list_to_map
    [ ("user_id", get user "id");
      ("name", get user "name");
      ("email", get user "email");
      ("company", get_or user "company" (VStr ""));
      ("title", get_or user "title" (VStr ""));
      ("state", get row "state");
      ("visibility", get row "visibility");
      ("updated_at", get row "updated_at") ].

(** One round of the loop over the sorted rows: [None] stands for
    [continue], [Some item] for [visible.append(item)]. *)
Definition row_entry (users : gmap string dict) (viewer : option dict)
    (c t : string) (state : option string) (row : dict) : option dict :=
  if state_mismatch state row then None
  else
    match users !! Py.str (get row "user_id") with
    | None => None
    | Some user =>
        if negb (dict_truthy user) then None
        else if negb (can_see viewer row) then None
        else if text_mismatch c "company" user then None
        else if text_mismatch t "title" user then None
        else Some (disclosure row user)
    end.

Record listing : Type := Listing {
  items : list dict;
  total_visible : nat;
  limit : nat
}.

(** The rows of the event, sorted: what the loop runs over. *)
Definition sorted_rows (data : store) (event_slug : string) : list dict :=
  sort_desc attendance_key (filter (λ a, of_event event_slug a) (attendances data)).

(** The [visible] list the loop builds. *)
Definition visible_list (data : store) (event_slug : string)
    (viewer : option dict) (company title state : option string) : list dict :=
  let users := users_by_id (users data) in
  let rows := sorted_rows data event_slug in
  let c := needle company in
  let t := needle title in
  omap (row_entry users viewer c t state) rows.

Definition visible_attendees (data : store) (event_slug : string)
    (viewer : option dict) (company title state : option string) : listing :=
  let visible := visible_list data event_slug viewer company title state in
  let limit := attendee_limit viewer in
  let limited := take limit visible in
  Listing limited (length visible) limit.

Definition list_visible_attendees (event_slug : string) (viewer : option dict)
    (company title state : option string) : M listing :=
  (data <- read_data ;;
   ret (visible_attendees data event_slug viewer company title state))%py.

(** ** Reading the loop row by row *)

(** The user a row resolves to, [users.get(str(row.get("user_id")))]. *)
Definition row_user (users : gmap string dict) (row : dict) : option dict :=
  users !! Py.str (get row "user_id").

(** The rows of the event for which the loop reaches [visible.append],
    in the order of the loop. *)
Definition surviving_rows (data : store) (event_slug : string)
    (viewer : option dict) (company title state : option string) : list dict :=
  filter (λ row, is_Some (row_entry (users_by_id (users data)) viewer
                            (needle company) (needle title) state row))
         (sorted_rows data event_slug).

(** The store without the attendance row [row]. *)
Definition without_row (data : store) (row : dict) : store :=
  set_attendances data (filter (λ a, a ≠ row) (attendances data)).

(** The viewer is a user with role [ADMIN]. *)
Definition admin_viewer (viewer : option dict) : Prop :=
  ∃ v, viewer = Some v ∧ get v "role" = VStr "ADMIN".

(** The viewer is a user with plan [PRO] and an [ACTIVE] subscription. *)
Definition active_pro_viewer (viewer : option dict) : Prop :=
  ∃ v, viewer = Some v ∧ get v "plan" = VStr "PRO" ∧
       get v "subscription_status" = VStr "ACTIVE".

(** The viewer is a user whose [verified_email_domain] flag is set. *)
Definition verified_viewer (viewer : option dict) : Prop :=
  ∃ v, viewer = Some v ∧ Py.truthy (get v "verified_email_domain") = true.

(** [canViewVerifiedOnly] in the words of the specification. *)
Definition canViewVerifiedOnly (viewer : option dict) : Prop :=
  admin_viewer viewer ∨ verified_viewer viewer ∨ active_pro_viewer viewer.

(** ** Sample data: the seed of [tests/test_app.py] *)

Module Seed.

Definition event_a : dict :=
  list_to_map
    [ ("slug", VStr "event-a"); ("name", VStr "Event A");
      ("description", VStr "Test event"); ("website_url", VStr "https://example.com");
      ("start_at", VStr "2026-04-12T09:00:00Z"); ("end_at", VStr "2026-04-14T17:00:00Z");
      ("city", VStr "Las Vegas"); ("country", VStr "US");
      ("tags", VList [VStr "payments"]) ].

Definition admin : dict :=
  list_to_map
    [ ("id", VStr "admin"); ("email", VStr "admin@local.dev"); ("name", VStr "Admin");
      ("role", VStr "ADMIN"); ("verified_email_domain", VBool true);
      ("company", VStr "AdminCo"); ("title", VStr "Admin");
      ("plan", VStr "PRO"); ("subscription_status", VStr "ACTIVE") ].

Definition free : dict :=
  list_to_map
    [ ("id", VStr "free"); ("email", VStr "free@local.dev"); ("name", VStr "Free User");
      ("role", VStr "USER"); ("verified_email_domain", VBool false);
      ("company", VStr "Indie"); ("title", VStr "Consultant");
      ("plan", VStr "FREE"); ("subscription_status", VStr "CANCELED") ].

Definition verified : dict :=
  list_to_map
    [ ("id", VStr "verified"); ("email", VStr "verified@stripe.com");
      ("name", VStr "Verified User");
      ("role", VStr "USER"); ("verified_email_domain", VBool true);
      ("company", VStr "Stripe"); ("title", VStr "Partnerships");
      ("plan", VStr "FREE"); ("subscription_status", VStr "CANCELED") ].

Definition attendance (user_id state visibility updated_at : string) : dict :=
  list_to_map
    [ ("event_slug", VStr "event-a"); ("user_id", VStr user_id); ("state", VStr state);
      ("visibility", VStr visibility); ("updated_at", VStr updated_at) ].

Definition row_free : dict :=
  attendance "free" "INTERESTED" "PUBLIC" "2026-02-08T12:00:00Z".
Definition row_verified : dict :=
  attendance "verified" "ATTENDING" "VERIFIED_ONLY" "2026-02-08T12:01:00Z".

Definition data : store :=
  Store [event_a] [admin; free; verified] [row_free; row_verified] [] [].

(** Variations on the seed: the attendance of [free] made [PRIVATE], and
    given a visibility outside the vocabulary. *)
Definition row_private : dict :=
  attendance "free" "INTERESTED" "PRIVATE" "2026-02-08T12:00:00Z".
Definition data_private : store :=
  Store [event_a] [admin; free; verified] [row_private; row_verified] [] [].

Definition row_odd : dict :=
  attendance "free" "INTERESTED" "FRIENDS" "2026-02-08T12:00:00Z".
Definition data_odd : store :=
  Store [event_a] [admin; free; verified] [row_odd; row_verified] [] [].

(** The world in which the snapshot file holds the seed. *)
Definition initial : world := World (Some data) [].

(** The attendance of [free] after
    [upsert_attendance("event-a", "free", "ATTENDING", "PRIVATE")] at
    12:05, and the world that call leaves. *)
Definition row_upserted : dict :=
  attendance "free" "ATTENDING" "PRIVATE" "2026-02-08T12:05:00Z".
Definition data_upserted : store :=
  Store [event_a] [admin; free; verified] [row_upserted; row_verified] [] [].
Definition after_upsert : world := World (Some data_upserted) [data_upserted].

(** The payloads of the scenario of [create_event]. *)
Definition foo_bar : dict := list_to_map [ ("slug", VStr ""); ("name", VStr "Foo Bar") ].
Definition foo_bar_again : dict := list_to_map [ ("name", VStr "Foo Bar") ].

(** A store whose only event has the slug [foo-bar] and another name. *)
Definition other_event : dict :=
  list_to_map [ ("slug", VStr "foo-bar"); ("name", VStr "Other"); ("tags", VList []) ].
Definition data_taken : store := Store [other_event] [] [] [] [].

(** A payload that renames [event-a] to [event-b]. *)
Definition rename_payload : dict := list_to_map [ ("slug", VStr "Event B") ].

End Seed.

(** ** The shape of a slug *)

Fixpoint all_chars (q : ascii -> bool) (s : string) : bool :=
  match s with
  | EmptyString => true
  | String c s' => q c && all_chars q s'
  end.

(** One of the letters [a]-[z], a digit [0]-[9] or a dash. *)
Definition slug_char (c : ascii) : bool :=
  Py.is_lower c || Py.is_digit c || Ascii.eqb c "-".

(** ** Names for the slugs the catalog computes *)

(** The slug [create_event] gives the event of [payload]. *)
Definition create_slug (payload : dict) : string :=
  _slugify (Py.str (Py.or (Py.or (get payload "slug") (get payload "name")) (VStr ""))).

(** The slug [update_event] gives the event [slug] under [payload]. *)
Definition rename_slug (slug : string) (payload : dict) : string :=
  _slugify (Py.str (Py.or (get payload "slug") (VStr slug))).

(** The store an operation reads from [w]. *)
Definition current (w : world) : store := default _default_data (data_file w).

(** Some event of the store has the slug. *)
Definition event_exists (slug : string) (d : store) : bool :=
  existsb (slug_is slug) (events d).

(** ** The read side of the catalog and of the ledger *)

Definition read_events : M (list dict) :=
  (data <- read_data ;; ret (events data))%py.

Section SortAsc.
Context {A : Type} (key : A -> string * string).

(** [insert_asc x l] puts [x] in front of the first element whose key is
    not smaller: ahead of the elements with an equal key. *)
Fixpoint insert_asc (x : A) (l : list A) : list A :=
  match l with
  | [] => [x]
  | y :: l' => if key_ltb (key y) (key x) then y :: insert_asc x l' else x :: l
  end.

(** [l.sort(key=key)]: ascending, and stable. *)
Definition sort_asc (l : list A) : list A := foldr insert_asc [] l.
End SortAsc.

(** [asc key x y]: [x] may stand before [y] in an ascending list. *)
Definition asc {A : Type} (key : A -> string * string) (x y : A) : Prop :=
  key_leb (key x) (key y) = true.

(** [(str(e.get("start_at", "")), str(e.get("slug", "")))] *)
Definition event_key (e : dict) : string * string :=
  (Py.str (get_or e "start_at" (VStr "")), Py.str (get_or e "slug" (VStr ""))).

(** [str(event.get(field, "")).lower()] *)
Definition lowered (event : dict) (field : string) : string :=
  Py.lower (Py.str (get_or event field (VStr ""))).

(** One round of the loop of [search_events]: [true] when the event is
    appended to [filtered]. *)
Definition event_matches (q c : string) (event : dict) : bool :=
  let name := lowered event "name" in
  let description := lowered event "description" in
  let event_city := lowered event "city" in
  if negb (String.eqb q "") && negb (Py.contains q name)
     && negb (Py.contains q description) then false
  else if negb (String.eqb c "") && negb (Py.contains c event_city) then false
  else true.

Definition search_events (query city : option string) : M (list dict) :=
  (events <- read_events ;;
   let q := needle query in
   let c := needle city in
   let filtered := filter (λ event, event_matches q c event) events in
   ret (sort_asc event_key filtered))%py.

(** The first element of the list the loop returns on. *)
Definition first_match {A : Type} (p : A -> bool) (l : list A) : option A :=
  snd <$> list_find (λ x, p x) l.

Definition get_event_by_slug (slug : string) : M (option dict) :=
  (events <- read_events ;; ret (first_match (slug_is slug) events))%py.

(** [str(user.get("email", "")).lower() == lookup] *)
Definition email_is (lookup : string) (user : dict) : bool :=
  String.eqb (Py.lower (Py.str (get_or user "email" (VStr "")))) lookup.

Definition get_user_by_email (email : string) : M (option dict) :=
  (let lookup := Py.lower (Py.strip email) in
   data <- read_data ;; ret (first_match (email_is lookup) (users data)))%py.

(** [str(user.get("id")) == user_id] *)
Definition id_is (user_id : string) (user : dict) : bool :=
  String.eqb (Py.str (get user "id")) user_id.

Definition get_user_by_id (user_id : string) : M (option dict) :=
  (data <- read_data ;; ret (first_match (id_is user_id) (users data)))%py.

Definition get_attendance_for_user (event_slug user_id : string) : M (option dict) :=
  (data <- read_data ;;
   ret (first_match (row_is event_slug user_id) (attendances data)))%py.

(** ** Invariants of the store *)

(** No two events have the same slug (as [str] reads it). *)
Definition unique_slugs (d : store) : Prop :=
  NoDup (map (λ event, Py.str (get event "slug")) (events d)).

(** At most one attendance row answers to a pair (event, user). *)
Definition unique_pairs (d : store) : Prop :=
  ∀ event_slug user_id i j ri rj,
    attendances d !! i = Some ri → attendances d !! j = Some rj →
    row_is event_slug user_id ri = true → row_is event_slug user_id rj = true →
    i = j.

(** No two users have the same id (as [str] reads it). *)
Definition unique_ids (d : store) : Prop :=
  NoDup (map (λ user, Py.str (get user "id")) (users d)).

(** No record of the three dependent collections refers to the slug. *)
Definition unreferenced (slug : string) (d : store) : Prop :=
  Forall (λ a, of_event slug a = false) (attendances d) ∧
  Forall (λ s, of_event slug s = false) (side_events d) ∧
  Forall (λ m, of_event slug m = false) (meeting_requests d).

(** The fields a disclosure record has. *)
Definition disclosed_fields : gset string :=
  {[ "user_id"; "name"; "email"; "company"; "title"; "state"; "visibility"; "updated_at" ]}.

(** The record [update_event] passes to [found.update]; [joined] is
    [",".join(found.get("tags", []))]. *)
Definition event_patch (new_slug : string) (payload found : dict) (joined : string) : dict :=
  list_to_map
    [ ("slug", VStr new_slug);
      ("name", VStr (patch_field payload found "name"));
      ("description", VStr (patch_field payload found "description"));
      ("website_url", VStr (patch_field payload found "website_url"));
      ("start_at", VStr (patch_field payload found "start_at"));
      ("end_at", VStr (patch_field payload found "end_at"));
      ("city", VStr (patch_field payload found "city"));
      ("country", VStr (patch_field payload found "country"));
      ("tags", VList (parse_tags (Py.str (get_or payload "tags" (VStr joined))))) ].

(** The text fields of an event, the slug and the tags apart. *)
Definition text_fields : list string :=
  [ "name"; "description"; "website_url"; "start_at"; "end_at"; "city"; "country" ].

(** A list of tags as [parse_tags] produces them: no tag is empty, has
    white space at an end, or contains a comma. *)
Definition clean_tag (s : string) : Prop :=
  s ≠ "" ∧ Py.strip s = s ∧ all_chars (λ c, negb (Ascii.eqb c ",")) s = true.
(** * Properties *)

Example str_examples :
  Py.str (VInt (-40)) = "-40" ∧ Py.str (VInt 0) = "0" ∧ Py.str VNone = "None" ∧
  Py.str (VList [VStr "a"; VInt 7; VBool true]) = "['a', 7, True]" ∧
  Py.strip "  a b  " = "a b" ∧ Py.split "," "a,,b," = ["a"; ""; "b"; ""] ∧
  Py.replace_dashes "a---b--" = "a--b-" ∧ Py.lower "Foo Bar" = "foo bar".
Proof. repeat split; reflexivity. Qed.

(** ** Python equality against a string *)

Lemma py_eq_str_r (v : value) (s : string) : Py.eq v (VStr s) = true ↔ v = VStr s.
Proof.
  destruct v; simpl; try (split; [discriminate | discriminate]).
  rewrite String.eqb_eq. split; congruence.
Qed.

Lemma py_eq_str_refl (s : string) : Py.eq (VStr s) (VStr s) = true.
Proof. apply py_eq_str_r; reflexivity. Qed.

Lemma dict_truthy_lookup (d : dict) (k : string) (v : value) :
  d !! k = Some v → dict_truthy d = true.
Proof.
  intros Hk. unfold dict_truthy. rewrite bool_decide_eq_false_2; [done|].
  intros ->. by rewrite lookup_empty in Hk.
Qed.

Lemma get_str_lookup (d : dict) (k s : string) : get d k = VStr s → d !! k = Some (VStr s).
Proof. unfold get. destruct (d !! k); simpl; congruence. Qed.

Lemma dict_truthy_empty : dict_truthy ∅ = false.
Proof. reflexivity. Qed.

(** ** The order on sort keys *)

Section KeyOrder.

Lemma ascii_compare_refl (c : ascii) : Ascii.compare c c = Eq.
Proof. unfold Ascii.compare. apply N.compare_refl. Qed.

Lemma ascii_compare_lt_trans (a b c : ascii) :
  Ascii.compare a b = Lt → Ascii.compare b c = Lt → Ascii.compare a c = Lt.
Proof.
  unfold Ascii.compare. rewrite !N.compare_lt_iff. apply N.lt_trans.
Qed.

Lemma string_compare_refl (s : string) : String.compare s s = Eq.
Proof. induction s as [|c s IH]; simpl; [done|]. by rewrite ascii_compare_refl. Qed.

Lemma string_compare_lt_trans (a b c : string) :
  String.compare a b = Lt → String.compare b c = Lt → String.compare a c = Lt.
Proof.
  revert b c. induction a as [|x a IH]; intros [|y b] [|z c]; simpl; try done.
  destruct (Ascii.compare x y) eqn:Hxy; try done.
  - apply Ascii.compare_eq_iff in Hxy as ->.
    destruct (Ascii.compare y z); try done. apply IH.
  - destruct (Ascii.compare y z) eqn:Hyz; try done.
    + apply Ascii.compare_eq_iff in Hyz as <-. by rewrite Hxy.
    + by rewrite (ascii_compare_lt_trans _ _ _ Hxy Hyz).
Qed.

Lemma string_compare_gt_lt (a b : string) :
  String.compare a b = Gt ↔ String.compare b a = Lt.
Proof.
  rewrite (String.compare_antisym b a). destruct (String.compare a b); simpl; split; congruence.
Qed.

Lemma key_compare_refl (a : string * string) : key_compare a a = Eq.
Proof. unfold key_compare. by rewrite !string_compare_refl. Qed.

Lemma key_compare_eq (a b : string * string) : key_compare a b = Eq → a = b.
Proof.
  destruct a as [a1 a2], b as [b1 b2]. unfold key_compare; simpl.
  destruct (String.compare a1 b1) eqn:H1; try done.
  intros H2. apply String.compare_eq_iff in H1, H2. congruence.
Qed.

Lemma key_compare_antisym (a b : string * string) :
  key_compare b a = CompOpp (key_compare a b).
Proof.
  unfold key_compare. rewrite (String.compare_antisym a.1 b.1).
  destruct (String.compare b.1 a.1); simpl; try done.
  apply String.compare_antisym.
Qed.

Lemma key_ltb_trans (a b c : string * string) :
  key_ltb a b = true → key_ltb b c = true → key_ltb a c = true.
Proof.
  destruct a as [a1 a2], b as [b1 b2], c as [c1 c2].
  unfold key_ltb, key_compare; simpl.
  destruct (String.compare a1 b1) eqn:H1; try done;
    destruct (String.compare b1 c1) eqn:H2; try done.
  - apply String.compare_eq_iff in H1 as ->. rewrite H2.
    destruct (String.compare a2 b2) eqn:H3; try done.
    destruct (String.compare b2 c2) eqn:H4; try done.
    by rewrite (string_compare_lt_trans _ _ _ H3 H4).
  - apply String.compare_eq_iff in H1 as ->. by rewrite H2.
  - apply String.compare_eq_iff in H2 as <-. by rewrite H1.
  - by rewrite (string_compare_lt_trans _ _ _ H1 H2).
Qed.

Lemma key_ltb_irrefl (a : string * string) : key_ltb a a = false.
Proof. unfold key_ltb. by rewrite key_compare_refl. Qed.

Lemma key_ltb_asym (a b : string * string) : key_ltb a b = true → key_ltb b a = false.
Proof.
  unfold key_ltb. rewrite (key_compare_antisym a b).
  by destruct (key_compare a b).
Qed.

Lemma key_leb_refl (a : string * string) : key_leb a a = true.
Proof. unfold key_leb. by rewrite key_ltb_irrefl. Qed.

Lemma key_leb_total (a b : string * string) : key_leb a b = true ∨ key_leb b a = true.
Proof.
  unfold key_leb. destruct (key_ltb b a) eqn:H; [right|by left].
  by rewrite (key_ltb_asym _ _ H).
Qed.

(** [a < b] and [b <= c] give [a < c]. *)
Lemma key_ltb_leb_trans (a b c : string * string) :
  key_ltb a b = true → key_leb b c = true → key_ltb a c = true.
Proof.
  unfold key_leb. intros Hab Hbc. apply negb_true_iff in Hbc.
  destruct (key_compare b c) eqn:Hc.
  - apply key_compare_eq in Hc as <-. done.
  - apply (key_ltb_trans _ b); [done|]. unfold key_ltb. by rewrite Hc.
  - unfold key_ltb in Hbc. rewrite (key_compare_antisym b c), Hc in Hbc. done.
Qed.

Lemma key_leb_trans (a b c : string * string) :
  key_leb a b = true → key_leb b c = true → key_leb a c = true.
Proof.
  intros Hab Hbc. unfold key_leb. apply negb_true_iff.
  destruct (key_ltb c a) eqn:Hca; [|done].
  pose proof (key_ltb_leb_trans _ _ _ Hca Hab) as Hcb.
  unfold key_leb in Hbc. by rewrite Hcb in Hbc.
Qed.

Lemma key_leb_antisym (a b : string * string) :
  key_leb a b = true → key_leb b a = true → a = b.
Proof.
  unfold key_leb, key_ltb. rewrite (key_compare_antisym a b).
  destruct (key_compare a b) eqn:H; simpl; try done.
  intros _ _. by apply key_compare_eq.
Qed.

End KeyOrder.

(** ** The stable descending sort *)

Lemma Forall_filter_keep {A} (P Q : A → Prop) `{!∀ x, Decision (P x)} (l : list A) :
  Forall Q l → Forall Q (filter P l).
Proof.
  rewrite !Forall_forall. intros HQ x Hx%list_elem_of_filter. apply HQ, Hx.
Qed.

Section SortFacts.
Context {A : Type} (key : A -> string * string).

#[local] Instance desc_trans : Transitive (desc key).
Proof. intros x y z Hxy Hyz. unfold desc in *. by eapply key_leb_trans. Qed.

Lemma insert_desc_perm (x : A) (l : list A) : insert_desc key x l ≡ₚ x :: l.
Proof.
  induction l as [|y l IH]; simpl; [done|].
  destruct (key_ltb (key x) (key y)); [|done].
  rewrite IH. apply Permutation_swap.
Qed.

Lemma sort_desc_perm (l : list A) : sort_desc key l ≡ₚ l.
Proof.
  induction l as [|x l IH]; simpl; [done|].
  by rewrite insert_desc_perm, IH.
Qed.

Lemma insert_desc_sorted (x : A) (l : list A) :
  StronglySorted (desc key) l → StronglySorted (desc key) (insert_desc key x l).
Proof.
  induction 1 as [|y l Hl IH Hy]; simpl.
  - repeat constructor.
  - destruct (key_ltb (key x) (key y)) eqn:Hlt.
    + constructor; [done|].
      rewrite insert_desc_perm. constructor; [|done].
      unfold desc, key_leb. by rewrite (key_ltb_asym _ _ Hlt).
    + assert ((desc key) x y) as Hxy by (unfold desc, key_leb; by rewrite Hlt).
      constructor; [by constructor|].
      constructor; [done|].
      eapply Forall_impl; [exact Hy|]. intros z Hz. by transitivity y.
Qed.

Lemma sort_desc_sorted (l : list A) : StronglySorted (desc key) (sort_desc key l).
Proof.
  induction l as [|x l IH]; simpl; [constructor|]. by apply insert_desc_sorted.
Qed.

(** Nothing in [l] is greater than [x]: [x] is inserted at the head. *)
Lemma insert_desc_head (x : A) (l : list A) :
  Forall ((desc key) x) l → insert_desc key x l = x :: l.
Proof.
  destruct 1 as [|y l Hy _]; simpl; [done|].
  unfold desc, key_leb in Hy. apply negb_true_iff in Hy. by rewrite Hy.
Qed.

Section Filter.
Context (P : A → Prop) `{!∀ x, Decision (P x)}.

Lemma insert_desc_filter (x : A) (l : list A) :
  StronglySorted (desc key) l →
  filter P (insert_desc key x l)
  = if decide (P x) then insert_desc key x (filter P l) else filter P l.
Proof.
  induction 1 as [|y l Hl IH Hy]; simpl.
  - rewrite filter_cons, filter_nil. by destruct (decide (P x)).
  - destruct (key_ltb (key x) (key y)) eqn:Hlt.
    + rewrite !(filter_cons _ y), IH.
      destruct (decide (P y)), (decide (P x)); simpl; try done.
      by rewrite Hlt.
    + rewrite (filter_cons _ x).
      destruct (decide (P x)) as [Hx|Hx]; [|done].
      symmetry. apply insert_desc_head.
      assert ((desc key) x y) as Hxy by (unfold desc, key_leb; by rewrite Hlt).
      apply Forall_filter_keep.
      constructor; [done|].
      eapply Forall_impl; [exact Hy|]. intros z Hz. by transitivity y.
Qed.

(** Sorting and filtering commute: the sort keeps the relative order
    of the rows it does not have to move. *)
Lemma sort_desc_filter (l : list A) :
  filter P (sort_desc key l) = sort_desc key (filter P l).
Proof.
  induction l as [|x l IH]; simpl; [done|].
  rewrite insert_desc_filter by apply sort_desc_sorted.
  rewrite filter_cons. destruct (decide (P x)); simpl; by rewrite IH.
Qed.
End Filter.

(** Stability: rows with one and the same key keep their order. *)
Lemma sort_desc_same_key (l : list A) (k : string * string) :
  Forall (λ x, key x = k) l → sort_desc key l = l.
Proof.
  induction 1 as [|x l Hx Hl IH]; simpl; [done|].
  rewrite IH. apply insert_desc_head.
  eapply Forall_impl; [exact Hl|]. intros y Hy. unfold desc.
  rewrite Hx, Hy. apply key_leb_refl.
Qed.

Lemma sort_desc_stable (l : list A) (k : string * string) :
  filter (λ x, key x = k) (sort_desc key l) = filter (λ x, key x = k) l.
Proof.
  rewrite sort_desc_filter. apply (sort_desc_same_key _ k).
  apply Forall_forall. intros x Hx%list_elem_of_filter. tauto.
Qed.

End SortFacts.

(** ** The loop of the engine, row by row *)

Lemma row_entry_Some users viewer c t state row item :
  row_entry users viewer c t state row = Some item ↔
  state_mismatch state row = false ∧
  ∃ user, row_user users row = Some user ∧ dict_truthy user = true ∧
          can_see viewer row = true ∧
          text_mismatch c "company" user = false ∧
          text_mismatch t "title" user = false ∧
          item = disclosure row user.
Proof.
  unfold row_entry, row_user. split.
  - destruct (state_mismatch state row); [done|].
    destruct (users !! Py.str (get row "user_id")) as [user|]; [|done].
    destruct (dict_truthy user) eqn:?; simpl; [|done].
    destruct (can_see viewer row); simpl; [|done].
    destruct (text_mismatch c "company" user) eqn:?; [done|].
    destruct (text_mismatch t "title" user) eqn:?; [done|].
    intros [= <-]. split; [done|]. exists user. repeat split; done.
  - intros (-> & user & -> & -> & -> & -> & -> & ->). done.
Qed.

Lemma omap_filter_Forall2 {A B} (f : A → option B) (l : list A) :
  Forall2 (λ x y, f x = Some y) (filter (λ x, is_Some (f x)) l) (omap f l).
Proof.
  induction l as [|x l IH]; simpl; [constructor|].
  rewrite filter_cons. destruct (f x) as [y|] eqn:Hx.
  - rewrite decide_True by eauto. by constructor.
  - rewrite decide_False; [done|]. by intros [? ?].
Qed.

Lemma omap_filter_None {A B} (f : A → option B) (P : A → Prop)
    `{!∀ x, Decision (P x)} (l : list A) :
  (∀ x, x ∈ l → ¬ P x → f x = None) → omap f (filter P l) = omap f l.
Proof.
  induction l as [|x l IH]; intros Hf; simpl; [done|].
  rewrite filter_cons. destruct (decide (P x)) as [Hx|Hx]; simpl.
  - destruct (f x); [f_equal|]; apply IH; intros y Hy; apply Hf; by right.
  - rewrite (Hf x); [|left|done]. apply IH. intros y Hy. apply Hf. by right.
Qed.

Lemma visible_list_rows data slug viewer company title state :
  Forall2 (λ row item,
             row_entry (users_by_id (users data)) viewer
               (needle company) (needle title) state row = Some item)
          (surviving_rows data slug viewer company title state)
          (visible_list data slug viewer company title state).
Proof. apply omap_filter_Forall2. Qed.

Lemma elem_of_sorted_rows data slug row :
  row ∈ sorted_rows data slug ↔ row ∈ attendances data ∧ of_event slug row = true.
Proof.
  unfold sorted_rows. rewrite sort_desc_perm, list_elem_of_filter.
  rewrite Is_true_true. tauto.
Qed.


(** ** Viewers *)

Lemma viewer_and_true viewer p :
  viewer_and viewer p = true ↔ ∃ v, viewer = Some v ∧ dict_truthy v = true ∧ p v = true.
Proof.
  destruct viewer as [v|]; simpl; [|naive_solver].
  rewrite andb_true_iff. naive_solver.
Qed.

Lemma is_admin_truthy v : is_admin v = true → dict_truthy v = true.
Proof.
  unfold is_admin. rewrite py_eq_str_r. intros H%get_str_lookup.
  by eapply dict_truthy_lookup.
Qed.

Lemma active_pro_truthy v : active_pro v = true → dict_truthy v = true.
Proof.
  unfold active_pro. rewrite andb_true_iff, !py_eq_str_r. intros [H%get_str_lookup _].
  by eapply dict_truthy_lookup.
Qed.

Lemma viewer_is_admin viewer : viewer_and viewer is_admin = true ↔ admin_viewer viewer.
Proof.
  rewrite viewer_and_true. unfold admin_viewer. split.
  - intros (v & -> & _ & Hv). exists v. split; [done|]. by apply py_eq_str_r.
  - intros (v & -> & Hv). exists v. apply py_eq_str_r in Hv.
    eauto using is_admin_truthy.
Qed.

Lemma viewer_active_pro viewer :
  viewer_and viewer active_pro = true ↔ active_pro_viewer viewer.
Proof.
  rewrite viewer_and_true. unfold active_pro_viewer, active_pro. split.
  - intros (v & -> & _ & Hv). exists v. split; [done|].
    apply andb_true_iff in Hv. by rewrite !py_eq_str_r in Hv.
  - intros (v & -> & Hv). exists v. rewrite <- !py_eq_str_r in Hv.
    apply andb_true_iff in Hv as Hv'. eauto using active_pro_truthy.
Qed.

Lemma attendee_limit_pro viewer :
  attendee_limit viewer = PRO_ATTENDEE_LIMIT ↔ admin_viewer viewer ∨ active_pro_viewer viewer.
Proof.
  rewrite <- viewer_is_admin, <- viewer_active_pro. unfold attendee_limit.
  destruct viewer as [v|]; simpl; [|naive_solver].
  destruct (dict_truthy v); simpl; [|naive_solver].
  destruct (is_admin v), (active_pro v); simpl; naive_solver.
Qed.

Lemma attendee_limit_cases viewer :
  attendee_limit viewer = PRO_ATTENDEE_LIMIT ∨ attendee_limit viewer = FREE_ATTENDEE_LIMIT.
Proof. unfold attendee_limit. destruct (viewer_and _ _); auto. Qed.

(** C3 (tier limiting). A listing never has more items than its limit;
    the limit is 500 exactly for a viewer who exists and is an [ADMIN]
    or has plan [PRO] with an [ACTIVE] subscription, and 25 for every
    other viewer (anonymous, [FREE], or [PRO] without an active
    subscription). *)
Theorem C3_tier_limit data event_slug viewer company title state :
  let r := visible_attendees data event_slug viewer company title state in
  length (items r) ≤ limit r ∧
  limit r = attendee_limit viewer ∧
  (limit r = 500 ↔ admin_viewer viewer ∨ active_pro_viewer viewer) ∧
  (¬ (admin_viewer viewer ∨ active_pro_viewer viewer) → limit r = 25) ∧
  list_visible_attendees event_slug viewer company title state
    = (λ w, (Ok (visible_attendees (default _default_data (data_file w))
                   event_slug viewer company title state), w)).
Proof.
  simpl. split; [|split; [done|split; [|split; [|done]]]].
  - rewrite length_take. lia.
  - apply attendee_limit_pro.
  - intros Hn. destruct (attendee_limit_cases viewer) as [H|H]; [|done].
    by apply attendee_limit_pro in H.
Qed.

Lemma dict_truthy_false (d : dict) : dict_truthy d = false → d = ∅.
Proof.
  unfold dict_truthy. intros H%negb_false_iff. by apply bool_decide_eq_true in H.
Qed.

Lemma truthy_flag_truthy v :
  Py.truthy (get v "verified_email_domain") = true → dict_truthy v = true.
Proof.
  intros H. destruct (dict_truthy v) eqn:Hv; [done|].
  apply dict_truthy_false in Hv as ->. done.
Qed.

Lemma can_view_verified_only_spec viewer :
  can_view_verified_only viewer = true ↔ canViewVerifiedOnly viewer.
Proof.
  unfold canViewVerifiedOnly.
  rewrite <- viewer_is_admin, <- viewer_active_pro. unfold verified_viewer.
  destruct viewer as [v|]; simpl.
  - destruct (dict_truthy v) eqn:Hv; simpl.
    + destruct (is_admin v); [tauto|].
      destruct (Py.truthy (get v "verified_email_domain")) eqn:Hf.
      * split; [|done]. intros _. right. left. eauto.
      * split; [tauto|]. intros [?|[(v' & [= <-] & ?)|?]]; congruence.
    + split; [done|]. intros [?|[(v' & [= <-] & Hf)|?]]; try done.
      apply truthy_flag_truthy in Hf. congruence.
  - split; [done|]. intros [?|[(v' & ? & _)|?]]; done.
Qed.

(** For a boolean [verified_email_domain], as in the data model, the flag
    is set exactly when the field is [true]. *)
Remark verified_viewer_bool (v : dict) (b : bool) :
  get v "verified_email_domain" = VBool b → (verified_viewer (Some v) ↔ b = true).
Proof.
  intros Hb. unfold verified_viewer. split.
  - intros (v' & [= <-] & H). by rewrite Hb in H.
  - intros ->. exists v. by rewrite Hb.
Qed.

(** ** The disclosure predicate *)

Lemma can_see_admin viewer row : admin_viewer viewer → can_see viewer row = true.
Proof. intros H%viewer_is_admin. unfold can_see. by rewrite H. Qed.

Lemma can_see_public viewer row :
  get row "visibility" = VStr "PUBLIC" → can_see viewer row = true.
Proof. intros H. unfold can_see. rewrite H. simpl. by destruct (viewer_and _ _). Qed.

Lemma can_view_verified_only_admin viewer :
  viewer_and viewer is_admin = true → can_view_verified_only viewer = true.
Proof.
  intros (v & -> & Hv & Ha)%viewer_and_true. simpl. by rewrite Hv, Ha.
Qed.

Lemma can_see_verified_only viewer row :
  get row "visibility" = VStr "VERIFIED_ONLY" →
  can_see viewer row = can_view_verified_only viewer.
Proof.
  intros H. unfold can_see. rewrite H. simpl.
  destruct (viewer_and viewer is_admin) eqn:Ha; [|done].
  by rewrite can_view_verified_only_admin.
Qed.

Lemma can_see_private viewer row :
  get row "visibility" = VStr "PRIVATE" →
  can_see viewer row
  = viewer_and viewer is_admin ||
    viewer_and viewer (λ v, Py.eq (get v "id") (get row "user_id")).
Proof.
  intros H. unfold can_see. rewrite H. simpl. by destruct (viewer_and viewer is_admin).
Qed.

Lemma can_see_unknown viewer row :
  get row "visibility" ≠ VStr "PUBLIC" →
  get row "visibility" ≠ VStr "VERIFIED_ONLY" →
  get row "visibility" ≠ VStr "PRIVATE" →
  can_see viewer row = viewer_and viewer is_admin.
Proof.
  intros H1 H2 H3. unfold can_see.
  destruct (viewer_and viewer is_admin); [done|].
  rewrite <- py_eq_str_r in H1, H2, H3.
  apply not_true_is_false in H1, H2, H3. by rewrite H1, H2, H3.
Qed.

(** ** Rows the loop skips and rows it keeps *)

Lemma row_entry_hidden users viewer c t state row :
  can_see viewer row = false → row_entry users viewer c t state row = None.
Proof.
  intros H. unfold row_entry.
  destruct (state_mismatch state row); [done|].
  destruct (users !! _) as [user|]; [|done].
  destruct (dict_truthy user); simpl; [|done]. by rewrite H.
Qed.

Lemma elem_of_surviving_rows data slug viewer company title state row :
  row ∈ surviving_rows data slug viewer company title state ↔
  row ∈ attendances data ∧ of_event slug row = true ∧
  is_Some (row_entry (users_by_id (users data)) viewer
             (needle company) (needle title) state row).
Proof.
  unfold surviving_rows. rewrite list_elem_of_filter, elem_of_sorted_rows. tauto.
Qed.

(** A row that survives sits at one and the same position in the list of
    surviving rows and in the [visible] list, and within the limit also
    in [items]. *)
Lemma surviving_row_position data slug viewer company title state row item :
  row ∈ attendances data → of_event slug row = true →
  row_entry (users_by_id (users data)) viewer
    (needle company) (needle title) state row = Some item →
  ∃ i, surviving_rows data slug viewer company title state !! i = Some row ∧
       visible_list data slug viewer company title state !! i = Some item ∧
       (i < attendee_limit viewer →
        items (visible_attendees data slug viewer company title state) !! i = Some item).
Proof.
  intros Hin Hev Hentry.
  assert (row ∈ surviving_rows data slug viewer company title state) as Hs.
  { apply elem_of_surviving_rows. rewrite Hentry. eauto. }
  apply list_elem_of_lookup_1 in Hs as [i Hi]. exists i. split; [done|].
  destruct (Forall2_lookup_l _ _ _ _ _
              (visible_list_rows data slug viewer company title state) Hi)
    as (item' & Hitem & Hrow).
  assert (item' = item) as -> by congruence.
  split; [done|]. intros Hlt. simpl. by rewrite lookup_take_lt.
Qed.

(** A row the loop skips could as well be absent from the store. *)
Lemma skipped_row_no_effect data slug viewer company title state row :
  row_entry (users_by_id (users data)) viewer
    (needle company) (needle title) state row = None →
  visible_attendees (without_row data row) slug viewer company title state
  = visible_attendees data slug viewer company title state.
Proof.
  intros Hnone.
  assert (visible_list (without_row data row) slug viewer company title state
          = visible_list data slug viewer company title state) as Hv.
  { unfold visible_list, sorted_rows, without_row. simpl.
    rewrite list_filter_filter.
    rewrite (list_filter_iff _ (λ a, a ≠ row ∧ of_event slug a)) by tauto.
    rewrite <- list_filter_filter, <- sort_desc_filter.
    apply omap_filter_None. intros x _ Hx.
    destruct (decide (x = row)) as [->|]; [done|tauto]. }
  unfold visible_attendees. by rewrite Hv.
Qed.

(** ** The scenarios of the specification on the seed data *)

Example anonymous_sees_public_only :
  visible_attendees Seed.data "event-a" None None None None
  = Listing [disclosure Seed.row_free Seed.free] 1 25.
Proof. vm_compute. reflexivity. Qed.

Example verified_sees_both :
  visible_attendees Seed.data "event-a" (Some Seed.verified) None None None
  = Listing [disclosure Seed.row_verified Seed.verified;
             disclosure Seed.row_free Seed.free] 2 25.
Proof. vm_compute. reflexivity. Qed.

(** ** Privacy of [PRIVATE] rows *)

(** C1, as stated, fails for an [ADMIN]: the viewer [admin] is not the
    owner [free] of the [PRIVATE] row, and yet the row is disclosed and
    counted. *)
Lemma C1_admin_sees_private_row :
  get Seed.row_private "visibility" = VStr "PRIVATE" ∧
  Seed.row_private ∈ attendances Seed.data_private ∧
  Py.eq (get Seed.admin "id") (get Seed.row_private "user_id") = false ∧
  surviving_rows Seed.data_private "event-a" (Some Seed.admin) None None None
    = [Seed.row_verified; Seed.row_private] ∧
  items (visible_attendees Seed.data_private "event-a" (Some Seed.admin) None None None)
    = [disclosure Seed.row_verified Seed.verified;
       disclosure Seed.row_private Seed.free] ∧
  total_visible (visible_attendees Seed.data_private "event-a" (Some Seed.admin) None None None)
    = 2.
Proof.
  split; [reflexivity|]. split; [by left|]. split; [reflexivity|].
  split; [vm_compute; reflexivity|]. split; vm_compute; reflexivity.
Qed.

(** C1 (privacy), amended. A [PRIVATE] row is never disclosed to a viewer
    who is not an [ADMIN] and who is anonymous or whose id differs from
    the row's [user_id]: the loop skips the row, it is not among the
    surviving rows, and the whole listing ([items], [total_visible]) is
    the one of the store without that row. *)
Theorem C1_private_hidden data event_slug viewer company title state row :
  get row "visibility" = VStr "PRIVATE" →
  ¬ admin_viewer viewer →
  (viewer = None ∨
   ∃ v, viewer = Some v ∧ Py.eq (get v "id") (get row "user_id") = false) →
  row_entry (users_by_id (users data)) viewer
    (needle company) (needle title) state row = None ∧
  (row ∉ surviving_rows data event_slug viewer company title state) ∧
  visible_attendees data event_slug viewer company title state
  = visible_attendees (without_row data row) event_slug viewer company title state.
Proof.
  intros Hvis Hadmin Hviewer.
  assert (can_see viewer row = false) as Hsee.
  { rewrite can_see_private by done.
    rewrite <- viewer_is_admin in Hadmin. apply not_true_is_false in Hadmin.
    rewrite Hadmin. simpl.
    destruct Hviewer as [->|(v & -> & Hne)]; [done|].
    simpl. rewrite Hne. apply andb_false_r. }
  pose proof (row_entry_hidden (users_by_id (users data)) viewer
                (needle company) (needle title) state row Hsee) as Hnone.
  split; [done|]. split.
  - rewrite elem_of_surviving_rows, Hnone. intros (_ & _ & [? ?]). done.
  - symmetry. by apply skipped_row_no_effect.
Qed.

(** The owner [free] of the [PRIVATE] row is shown it ([total_visible]
    is 1); the anonymous viewer is not, and gets the listing of the store
    without the row ([total_visible] is 0): the two viewers see different
    totals for the same event. *)
Lemma C1_private_hidden_witness :
  total_visible (visible_attendees Seed.data_private "event-a" (Some Seed.free) None None None)
    = 1 ∧
  total_visible (visible_attendees Seed.data_private "event-a" None None None None) = 0 ∧
  (Seed.row_private ∉ surviving_rows Seed.data_private "event-a" None None None None) ∧
  visible_attendees Seed.data_private "event-a" None None None None
  = visible_attendees (without_row Seed.data_private Seed.row_private) "event-a"
      None None None None.
Proof.
  split; [vm_compute; reflexivity|]. split; [vm_compute; reflexivity|].
  refine (proj2 (C1_private_hidden Seed.data_private "event-a" None
                   None None None Seed.row_private _ _ _)).
  - reflexivity.
  - intros (v & Hv & _). discriminate Hv.
  - by left.
Defined.

(** ** [VERIFIED_ONLY] rows *)

(** C2 (verified-only disclosure). Take a [VERIFIED_ONLY] row of the
    event that no other filter excludes (its state matches, its user
    resolves, the company and title filters match). The decision of the
    loop for the row is [can_view_verified_only viewer], which holds
    exactly when the viewer exists and is an [ADMIN], or has the
    [verified_email_domain] flag set, or has plan [PRO] with an [ACTIVE]
    subscription. When it holds, the row has a position among the
    surviving rows, its disclosure record stands at that position of the
    [visible] list and, if the position is below the limit, of [items].
    When it does not hold (in particular for the anonymous viewer), the
    row is skipped and the listing is the one of the store without it. *)
Theorem C2_verified_only data event_slug viewer company title state row user :
  row ∈ attendances data →
  of_event event_slug row = true →
  get row "visibility" = VStr "VERIFIED_ONLY" →
  state_mismatch state row = false →
  row_user (users_by_id (users data)) row = Some user →
  dict_truthy user = true →
  text_mismatch (needle company) "company" user = false →
  text_mismatch (needle title) "title" user = false →
  let r := visible_attendees data event_slug viewer company title state in
  can_see viewer row = can_view_verified_only viewer ∧
  (can_view_verified_only viewer = true ↔ canViewVerifiedOnly viewer) ∧
  (viewer = None → ¬ canViewVerifiedOnly viewer) ∧
  (canViewVerifiedOnly viewer →
   ∃ i, surviving_rows data event_slug viewer company title state !! i = Some row ∧
        visible_list data event_slug viewer company title state !! i
          = Some (disclosure row user) ∧
        (i < limit r → items r !! i = Some (disclosure row user))) ∧
  (¬ canViewVerifiedOnly viewer →
   (row ∉ surviving_rows data event_slug viewer company title state) ∧
   r = visible_attendees (without_row data row) event_slug viewer company title state).
Proof.
  intros Hin Hev Hvis Hstate Huser Htruthy Hc Ht r.
  pose proof (can_see_verified_only viewer row Hvis) as Hsee.
  split; [done|]. split; [apply can_view_verified_only_spec|].
  split; [|split].
  - intros -> H%can_view_verified_only_spec. done.
  - intros Hcan%can_view_verified_only_spec.
    apply surviving_row_position; [done..|].
    apply row_entry_Some. split; [done|]. exists user.
    rewrite Hsee, Hcan. done.
  - intros Hcan. rewrite <- can_view_verified_only_spec in Hcan.
    apply not_true_is_false in Hcan. rewrite Hcan in Hsee.
    pose proof (row_entry_hidden (users_by_id (users data)) viewer
                  (needle company) (needle title) state row Hsee) as Hnone.
    split.
    + rewrite elem_of_surviving_rows, Hnone. intros (_ & _ & [? ?]). done.
    + symmetry. by apply skipped_row_no_effect.
Qed.

(** The [VERIFIED_ONLY] row of the seed: disclosed to the user
    [verified], at the head of [items]; skipped for the anonymous
    viewer. *)
Lemma C2_verified_only_witness :
  (∃ i, surviving_rows Seed.data "event-a" (Some Seed.verified) None None None !! i
          = Some Seed.row_verified ∧
        visible_list Seed.data "event-a" (Some Seed.verified) None None None !! i
          = Some (disclosure Seed.row_verified Seed.verified) ∧
        (i < 25 →
         items (visible_attendees Seed.data "event-a" (Some Seed.verified) None None None) !! i
           = Some (disclosure Seed.row_verified Seed.verified))) ∧
  (Seed.row_verified ∉ surviving_rows Seed.data "event-a" None None None None).
Proof.
  split.
  - refine (proj1 (proj2 (proj2 (proj2
      (C2_verified_only Seed.data "event-a" (Some Seed.verified) None None None
         Seed.row_verified Seed.verified _ _ _ _ _ _ _ _)))) _).
    + right; left.
    + reflexivity.
    + reflexivity.
    + reflexivity.
    + vm_compute; reflexivity.
    + reflexivity.
    + reflexivity.
    + reflexivity.
    + right; left. exists Seed.verified. split; reflexivity.
  - refine (proj1 (proj2 (proj2 (proj2 (proj2
      (C2_verified_only Seed.data "event-a" None None None None
         Seed.row_verified Seed.verified _ _ _ _ _ _ _ _)))) _)).
    + right; left.
    + reflexivity.
    + reflexivity.
    + reflexivity.
    + vm_compute; reflexivity.
    + reflexivity.
    + reflexivity.
    + reflexivity.
    + intros [(v & Hv & _)|[(v & Hv & _)|(v & Hv & _)]]; discriminate Hv.
Defined.

(** ** Rows with a visibility outside the vocabulary *)

(** C10 (unknown visibility). A row whose [visibility] is none of
    [PUBLIC], [VERIFIED_ONLY] and [PRIVATE] (a missing field reads as
    [None]) is skipped for every viewer who is not an [ADMIN], the row's
    own user included: the listing is the one of the store without the
    row. An [ADMIN] still gets it, whenever the other filters let it
    through. *)
Theorem C10_unknown_visibility data event_slug viewer company title state row :
  get row "visibility" ≠ VStr "PUBLIC" →
  get row "visibility" ≠ VStr "VERIFIED_ONLY" →
  get row "visibility" ≠ VStr "PRIVATE" →
  let users := users_by_id (users data) in
  let r := visible_attendees data event_slug viewer company title state in
  (¬ admin_viewer viewer →
   can_see viewer row = false ∧
   row_entry users viewer (needle company) (needle title) state row = None ∧
   (row ∉ surviving_rows data event_slug viewer company title state) ∧
   r = visible_attendees (without_row data row) event_slug viewer company title state) ∧
  (admin_viewer viewer →
   can_see viewer row = true ∧
   ∀ user,
     row ∈ attendances data → of_event event_slug row = true →
     state_mismatch state row = false →
     row_user users row = Some user → dict_truthy user = true →
     text_mismatch (needle company) "company" user = false →
     text_mismatch (needle title) "title" user = false →
     ∃ i, surviving_rows data event_slug viewer company title state !! i = Some row ∧
          visible_list data event_slug viewer company title state !! i
            = Some (disclosure row user) ∧
          (i < limit r → items r !! i = Some (disclosure row user))).
Proof.
  intros H1 H2 H3 us r.
  pose proof (can_see_unknown viewer row H1 H2 H3) as Hsee. split.
  - intros Hadmin. rewrite <- viewer_is_admin in Hadmin.
    apply not_true_is_false in Hadmin. rewrite Hadmin in Hsee.
    pose proof (row_entry_hidden us viewer
                  (needle company) (needle title) state row Hsee) as Hnone.
    split; [done|]. split; [done|]. split.
    + rewrite elem_of_surviving_rows. fold us. rewrite Hnone. intros (_ & _ & [? ?]). done.
    + symmetry. by apply skipped_row_no_effect.
  - intros Hadmin. pose proof (can_see_admin viewer row Hadmin) as Htrue.
    split; [done|]. intros user Hin Hev Hstate Huser Htruthy Hc Ht.
    apply surviving_row_position; [done..|].
    apply row_entry_Some. split; [done|]. exists user. done.
Qed.

(** The row of [free] with visibility [FRIENDS]: hidden from [free],
    shown to [admin]. *)
Lemma C10_unknown_visibility_witness :
  (Seed.row_odd ∉ surviving_rows Seed.data_odd "event-a" (Some Seed.free) None None None) ∧
  can_see (Some Seed.admin) Seed.row_odd = true ∧
  items (visible_attendees Seed.data_odd "event-a" (Some Seed.admin) None None None)
  = [disclosure Seed.row_verified Seed.verified; disclosure Seed.row_odd Seed.free].
Proof.
  pose proof (C10_unknown_visibility Seed.data_odd "event-a" (Some Seed.free)
                None None None Seed.row_odd) as Hfree.
  pose proof (C10_unknown_visibility Seed.data_odd "event-a" (Some Seed.admin)
                None None None Seed.row_odd) as Hadmin.
  split; [|split].
  - refine (proj1 (proj2 (proj2 (proj1 (Hfree _ _ _) _)))).
    + discriminate.
    + discriminate.
    + discriminate.
    + intros (v & [= <-] & Hv). discriminate Hv.
  - refine (proj1 (proj2 (Hadmin _ _ _) _)).
    + discriminate.
    + discriminate.
    + discriminate.
    + exists Seed.admin. split; reflexivity.
  - vm_compute. reflexivity.
Defined.

(** ** Company and title filters *)

Lemma omap_sublist {A B} (f g : A → option B) (l : list A) :
  (∀ x y, f x = Some y → g x = Some y) → omap f l `sublist_of` omap g l.
Proof.
  intros Hfg. induction l as [|x l IH]; simpl; [constructor|].
  destruct (f x) as [y|] eqn:Hf.
  - rewrite (Hfg x y Hf). by constructor.
  - destruct (g x); [by constructor|done].
Qed.

Lemma filter_sublist_impl {A} (P Q : A → Prop)
    `{!∀ x, Decision (P x)} `{!∀ x, Decision (Q x)} (l : list A) :
  (∀ x, P x → Q x) → filter P l `sublist_of` filter Q l.
Proof.
  intros HPQ. induction l as [|x l IH]; [constructor|].
  rewrite !filter_cons. destruct (decide (P x)) as [Hx|Hx].
  - rewrite decide_True by auto. by constructor.
  - destruct (decide (Q x)); [by constructor|done].
Qed.

Lemma needle_None : needle None = "".
Proof. reflexivity. Qed.

Lemma text_mismatch_empty field user : text_mismatch "" field user = false.
Proof. reflexivity. Qed.

(** A text filter lets a user through when it is empty or a substring
    of the lower-cased field. *)
Lemma text_mismatch_false c field user :
  text_mismatch c field user = false ↔
  c = "" ∨ Py.contains c (Py.lower (Py.str (get_or user field (VStr "")))) = true.
Proof.
  unfold text_mismatch. rewrite andb_false_iff, !negb_false_iff, String.eqb_eq. tauto.
Qed.

(** With filters, the loop keeps a row exactly when it keeps it without
    filters and both filters match the row's user. *)
Lemma row_entry_filters users viewer c t state row item :
  row_entry users viewer c t state row = Some item ↔
  row_entry users viewer "" "" state row = Some item ∧
  ∃ user, row_user users row = Some user ∧
          text_mismatch c "company" user = false ∧
          text_mismatch t "title" user = false.
Proof.
  rewrite !row_entry_Some. split.
  - intros (Hs & user & Hu & Ht & Hsee & Hc & Hti & ->).
    split; [|by eauto]. split; [done|]. exists user. done.
  - intros ((Hs & user & Hu & Ht & Hsee & _ & _ & ->) & user' & Hu' & Hc & Hti).
    assert (user' = user) as -> by congruence.
    split; [done|]. exists user. done.
Qed.

(** C5 (filters only narrow). For one viewer, event and state filter,
    the [visible] list under company and title filters is a sublist of
    the [visible] list without them, and so are [items]; the same holds
    of the surviving rows, and [total_visible] can only shrink. A row is
    kept under the filters exactly when it is kept without them and the
    lower-cased, stripped filter texts are empty or substrings of the
    lower-cased company and title of the row's user; every row kept has
    passed the disclosure predicate. *)
Theorem C5_filters_narrow data event_slug viewer company title state :
  let users := users_by_id (users data) in
  let r := visible_attendees data event_slug viewer company title state in
  let r0 := visible_attendees data event_slug viewer None None state in
  let full := visible_list data event_slug viewer None None state in
  visible_list data event_slug viewer company title state `sublist_of` full ∧
  items r `sublist_of` full ∧
  (∀ item, item ∈ items r → item ∈ full) ∧
  surviving_rows data event_slug viewer company title state
    `sublist_of` surviving_rows data event_slug viewer None None state ∧
  total_visible r ≤ total_visible r0 ∧
  (∀ row item,
     row_entry users viewer (needle company) (needle title) state row = Some item ↔
     row_entry users viewer (needle None) (needle None) state row = Some item ∧
     ∃ user, row_user users row = Some user ∧
       (needle company = "" ∨
        Py.contains (needle company)
          (Py.lower (Py.str (get_or user "company" (VStr "")))) = true) ∧
       (needle title = "" ∨
        Py.contains (needle title)
          (Py.lower (Py.str (get_or user "title" (VStr "")))) = true)) ∧
  (∀ row, row ∈ surviving_rows data event_slug viewer company title state →
          can_see viewer row = true) ∧
  (∀ row, can_see viewer row = false →
          row_entry users viewer (needle company) (needle title) state row = None).
Proof.
  intros us r r0 full.
  assert (visible_list data event_slug viewer company title state `sublist_of` full) as Hsub.
  { apply omap_sublist. intros row item H. rewrite needle_None.
    by apply row_entry_filters in H as [H _]. }
  split; [done|]. split; [|split; [|split; [|split; [|split; [|split]]]]].
  - simpl. etransitivity; [apply sublist_take|done].
  - intros item Hitem. eapply sublist_subseteq; [|exact Hitem].
    simpl. etransitivity; [apply sublist_take|done].
  - apply filter_sublist_impl. intros row [item H]. exists item.
    rewrite needle_None. by apply row_entry_filters in H as [H _].
  - simpl. by apply sublist_length.
  - intros row item. rewrite row_entry_filters, needle_None.
    setoid_rewrite text_mismatch_false. done.
  - intros row (_ & _ & [item H])%elem_of_surviving_rows.
    apply row_entry_Some in H as (_ & user & _ & _ & Hsee & _). done.
  - intros row Hsee. by apply row_entry_hidden.
Qed.

(** ** Ordering and truncation *)







(** ** Failing operations write nothing *)

Lemma py_join_raise sep v w e w' : py_join sep v w = (Raise e, w') → w' = w.
Proof.
  unfold py_join, ret, raise. intros H.
  repeat case_match; by simplify_eq.
Qed.

Lemma py_join_ok sep v w s w' : py_join sep v w = (Ok s, w') → w' = w.
Proof.
  unfold py_join, ret, raise. intros H.
  repeat case_match; by simplify_eq.
Qed.

Lemma create_event_raise payload w e w' :
  create_event payload w = (Raise e, w') → w' = w.
Proof.
  unfold create_event, bind, read_data, write_data, raise, ret. intros H.
  repeat case_match; by simplify_eq.
Qed.

Lemma update_event_raise slug payload w e w' :
  update_event slug payload w = (Raise e, w') → w' = w.
Proof.
  unfold update_event, bind, read_data, write_data, raise, ret. intros H.
  destruct (list_find _ _) as [[i found]|]; [|by simplify_eq].
  destruct (_ && _); [by simplify_eq|].
  destruct (py_join _ _ _) as [[joined|e'] w1] eqn:Hj.
  - repeat case_match; by simplify_eq.
  - apply py_join_raise in Hj. by simplify_eq.
Qed.

Lemma delete_event_raise slug w e w' :
  delete_event slug w = (Raise e, w') → w' = w.
Proof.
  unfold delete_event, bind, read_data, write_data, raise, ret. intros H.
  repeat case_match; by simplify_eq.
Qed.

Lemma upsert_attendance_raise now event_slug user_id state visibility w e w' :
  upsert_attendance now event_slug user_id state visibility w = (Raise e, w') → w' = w.
Proof.
  unfold upsert_attendance, bind, read_data, write_data, raise, ret. intros H.
  repeat case_match; by simplify_eq.
Qed.

Lemma existsb_false_find {A} (p : A → bool) (l : list A) :
  existsb p l = false → list_find (λ x, p x) l = None.
Proof.
  intros H. apply list_find_None, Forall_forall. intros x Hx Hp.
  assert (existsb p l = true) as Ht; [|congruence].
  apply existsb_exists. exists x. split; [by apply list_elem_of_In|].
  by apply Is_true_true.
Qed.

Lemma existsb_false_filter {A} (p : A → bool) (l : list A) :
  existsb p l = false → filter (λ x, negb (p x)) l = l.
Proof.
  induction l as [|x l IH]; simpl; [done|].
  intros [Hx Hl]%orb_false_iff. rewrite filter_cons, Hx. simpl.
  by rewrite IH.
Qed.

Lemma create_event_taken payload w :
  event_exists (create_slug payload) (current w) = true →
  create_slug payload ≠ "" →
  create_event payload w = (Raise (ValueError "Event slug already exists"), w).
Proof.
  intros H Hne. unfold create_event, bind, read_data, raise.
  fold (create_slug payload). apply String.eqb_neq in Hne. rewrite Hne.
  unfold event_exists, current in H. by rewrite H.
Qed.

(** C6 (errors have no side effect). Whenever [create_event],
    [update_event], [delete_event] or [upsert_attendance] raises, the
    world is the one before the call: the snapshot file is unchanged and
    no [write_data] took place. The failures named by the specification
    do raise: an invalid state or visibility, an empty slug or name, a
    slug collision, an unknown event. *)
Theorem C6_errors_have_no_effect :
  (∀ payload w e w', create_event payload w = (Raise e, w') → w' = w) ∧
  (∀ slug payload w e w', update_event slug payload w = (Raise e, w') → w' = w) ∧
  (∀ slug w e w', delete_event slug w = (Raise e, w') → w' = w) ∧
  (∀ now event_slug user_id state visibility w e w',
     upsert_attendance now event_slug user_id state visibility w = (Raise e, w') → w' = w) ∧
  (∀ payload w, create_slug payload = "" →
     create_event payload w = (Raise (ValueError "Slug or name is required"), w)) ∧
  (∀ payload w, event_exists (create_slug payload) (current w) = true →
     create_slug payload ≠ "" →
     create_event payload w = (Raise (ValueError "Event slug already exists"), w)) ∧
  (∀ payload w, text_field payload "name" = "" →
     ∃ msg, create_event payload w = (Raise (ValueError msg), w)) ∧
  (∀ slug payload w, event_exists slug (current w) = false →
     update_event slug payload w = (Raise (ValueError "Event not found"), w)) ∧
  (∀ slug payload w, event_exists slug (current w) = true →
     rename_slug slug payload ≠ slug →
     event_exists (rename_slug slug payload) (current w) = true →
     update_event slug payload w = (Raise (ValueError "Event slug already exists"), w)) ∧
  (∀ slug w, event_exists slug (current w) = false →
     delete_event slug w = (Raise (ValueError "Event not found"), w)) ∧
  (∀ now event_slug user_id state visibility w, state ∉ valid_states →
     upsert_attendance now event_slug user_id state visibility w
     = (Raise (ValueError "Invalid attendance state"), w)) ∧
  (∀ now event_slug user_id state visibility w,
     state ∈ valid_states → visibility ∉ valid_visibilities →
     upsert_attendance now event_slug user_id state visibility w
     = (Raise (ValueError "Invalid attendance visibility"), w)) ∧
  (∀ now event_slug user_id state visibility w,
     state ∈ valid_states → visibility ∈ valid_visibilities →
     event_exists event_slug (current w) = false →
     upsert_attendance now event_slug user_id state visibility w
     = (Raise (ValueError "Event not found"), w)).
Proof.
  split; [exact create_event_raise|]. split; [exact update_event_raise|].
  split; [exact delete_event_raise|]. split; [exact upsert_attendance_raise|].
  repeat split.
  - intros payload w H. unfold create_event, bind, read_data, raise.
    fold (create_slug payload). by rewrite H.
  - apply create_event_taken.
  - intros payload w H. unfold create_event, bind, read_data, raise.
    destruct (String.eqb _ ""); [by eauto|].
    destruct (existsb _ _); [by eauto|].
    assert (∀ slug, get (new_event slug payload) "name" = VStr (text_field payload "name"))
      as -> by reflexivity.
    rewrite H. simpl. eauto.
  - intros slug payload w H. unfold update_event, bind, read_data, raise.
    unfold event_exists, current in H. by rewrite (existsb_false_find _ _ H).
  - intros slug payload w Hex Hne Hcol. unfold update_event, bind, read_data, raise.
    unfold event_exists, current in Hex, Hcol.
    destruct (list_find _ _) as [[i found]|] eqn:Hfind.
    + fold (rename_slug slug payload). apply String.eqb_neq in Hne.
      by rewrite Hne, Hcol.
    + apply list_find_None in Hfind. rewrite Forall_forall in Hfind.
      apply existsb_exists in Hex as (x & Hx%list_elem_of_In & Hp).
      exfalso. apply (Hfind x Hx). by apply Is_true_true.
  - intros slug w H. unfold delete_event, bind, read_data, raise.
    unfold event_exists, current in H. simpl.
    by rewrite (existsb_false_filter _ _ H), Nat.eqb_refl.
  - intros now event_slug user_id state visibility w H.
    unfold upsert_attendance. by rewrite bool_decide_eq_false_2.
  - intros now event_slug user_id state visibility w H1 H2.
    unfold upsert_attendance.
    by rewrite (bool_decide_eq_true_2 _ H1), bool_decide_eq_false_2.
  - intros now event_slug user_id state visibility w H1 H2 H3.
    unfold upsert_attendance, bind, read_data, raise.
    rewrite (bool_decide_eq_true_2 _ H1), (bool_decide_eq_true_2 _ H2). simpl.
    unfold event_exists, current in H3. by rewrite H3.
Qed.

(** ** The attendance ledger *)

Lemma attendance_patch_lookup state visibility now (k : string) :
  attendance_patch state visibility now !! k
  = if decide ("state" = k) then Some (VStr state)
    else if decide ("visibility" = k) then Some (VStr visibility)
    else if decide ("updated_at" = k) then Some (VStr now)
    else None.
Proof.
  unfold attendance_patch. simpl. rewrite !lookup_insert, lookup_empty. done.
Qed.

Lemma new_attendance_lookup event_slug user_id state visibility now (k : string) :
  new_attendance event_slug user_id state visibility now !! k
  = if decide ("event_slug" = k) then Some (VStr event_slug)
    else if decide ("user_id" = k) then Some (VStr user_id)
    else if decide ("state" = k) then Some (VStr state)
    else if decide ("visibility" = k) then Some (VStr visibility)
    else if decide ("updated_at" = k) then Some (VStr now)
    else None.
Proof.
  unfold new_attendance. simpl. rewrite !lookup_insert, lookup_empty. done.
Qed.

Lemma dict_update_lookup (d upd : dict) (k : string) :
  dict_update d upd !! k = match upd !! k with Some v => Some v | None => d !! k end.
Proof.
  unfold dict_update. rewrite lookup_union.
  destruct (upd !! k), (d !! k); done.
Qed.

(** Patching a row that already has the state and the visibility changes
    its [updated_at] only. *)
Lemma patch_again (row : dict) state visibility now :
  row !! "state" = Some (VStr state) →
  row !! "visibility" = Some (VStr visibility) →
  dict_update row (attendance_patch state visibility now)
  = <["updated_at" := VStr now]> row.
Proof.
  intros Hs Hv. apply map_eq. intros k.
  rewrite dict_update_lookup, attendance_patch_lookup, lookup_insert.
  repeat case_decide; subst; done.
Qed.

Lemma patched_row_is event_slug user_id (row : dict) state visibility now :
  row_is event_slug user_id (dict_update row (attendance_patch state visibility now))
  = row_is event_slug user_id row.
Proof.
  unfold row_is, of_event, get.
  rewrite !dict_update_lookup, !attendance_patch_lookup. done.
Qed.

Lemma new_attendance_row_is event_slug user_id state visibility now :
  row_is event_slug user_id (new_attendance event_slug user_id state visibility now) = true.
Proof.
  unfold row_is, of_event, get. rewrite !new_attendance_lookup. simpl.
  by rewrite !String.eqb_refl.
Qed.

Lemma row_is_truthy event_slug user_id row :
  row_is event_slug user_id row = true → dict_truthy row = true.
Proof.
  unfold row_is, of_event. intros [H _]%andb_true_iff.
  apply py_eq_str_r, get_str_lookup in H. by eapply dict_truthy_lookup.
Qed.

Section ListFind.
Context {A : Type} (p : A → bool).

Lemma list_find_replace (l : list A) (i : nat) (old new : A) :
  list_find (λ x, p x) l = Some (i, old) → p new = true →
  list_find (λ x, p x) (<[i := new]> l) = Some (i, new).
Proof.
  intros (Hi & _ & Hbefore)%list_find_Some Hnew. apply list_find_Some.
  split; [|split].
  - apply list_lookup_insert_eq. by eapply lookup_lt_Some.
  - by apply Is_true_true.
  - intros j y Hj Hlt. rewrite list_lookup_insert_ne in Hj by lia. by eapply Hbefore.
Qed.

Lemma list_find_append (l : list A) (new : A) :
  list_find (λ x, p x) l = None → p new = true →
  list_find (λ x, p x) (l ++ [new]) = Some (length l, new).
Proof.
  intros Hnone Hnew. apply list_find_Some. split; [|split].
  - rewrite lookup_app_r by lia. by rewrite Nat.sub_diag.
  - by apply Is_true_true.
  - intros j y Hj Hlt. rewrite lookup_app_l in Hj by done.
    apply list_find_None in Hnone. rewrite Forall_forall in Hnone.
    apply Hnone. by eapply list_elem_of_lookup_2.
Qed.
End ListFind.

(** What a call of [upsert_attendance] with valid arguments does. *)
Lemma upsert_attendance_ok now event_slug user_id state visibility w :
  state ∈ valid_states → visibility ∈ valid_visibilities →
  event_exists event_slug (current w) = true →
  upsert_attendance now event_slug user_id state visibility w
  = let d := current w in
    match list_find (λ row, row_is event_slug user_id row) (attendances d) with
    | Some (i, old) =>
        let row' := dict_update old (attendance_patch state visibility now) in
        let d' := set_attendances d (<[i := row']> (attendances d)) in
        (Ok row', World (Some d') (d' :: write_log w))
    | None =>
        let created := new_attendance event_slug user_id state visibility now in
        let d' := set_attendances d (attendances d ++ [created]) in
        (Ok created, World (Some d') (d' :: write_log w))
    end.
Proof.
  intros Hs Hv He. unfold upsert_attendance, bind, read_data, write_data, ret.
  rewrite (bool_decide_eq_true_2 _ Hs), (bool_decide_eq_true_2 _ Hv). simpl.
  unfold event_exists, current in He. rewrite He. simpl. unfold current.
  destruct (list_find _ _) as [[i old]|] eqn:Hfind; [|done].
  apply list_find_Some in Hfind as (_ & Hp%Is_true_true & _).
  by rewrite (row_is_truthy _ _ _ Hp).
Qed.

Lemma upsert_attendance_ok_inv now event_slug user_id state visibility w row w' :
  upsert_attendance now event_slug user_id state visibility w = (Ok row, w') →
  state ∈ valid_states ∧ visibility ∈ valid_visibilities ∧
  event_exists event_slug (current w) = true.
Proof.
  unfold upsert_attendance, bind, read_data, raise, event_exists, current.
  destruct (bool_decide (state ∈ valid_states)) eqn:Hs; simpl; [|done].
  destruct (bool_decide (visibility ∈ valid_visibilities)) eqn:Hv; simpl; [|done].
  destruct (existsb _ _); simpl; [|done].
  intros _. by apply bool_decide_eq_true in Hs, Hv.
Qed.

Lemma filter_length_insert {A} (P : A → Prop) `{!∀ x, Decision (P x)}
    (l : list A) (i : nat) (x y : A) :
  l !! i = Some x → (P x ↔ P y) →
  length (filter P (<[i := y]> l)) = length (filter P l).
Proof.
  revert i. induction l as [|z l IH]; intros [|i] Hi Hxy; simpl in *; try done.
  - injection Hi as ->. rewrite !filter_cons.
    destruct (decide (P y)), (decide (P x)); simpl; tauto || done.
  - rewrite !filter_cons. destruct (decide (P z)); simpl; by rewrite (IH i).
Qed.

(** The second of two calls with the same arguments, from a world whose
    first row of the pair already carries the state and visibility. *)
Lemma upsert_attendance_again now event_slug user_id state visibility w i row :
  state ∈ valid_states → visibility ∈ valid_visibilities →
  event_exists event_slug (current w) = true →
  list_find (λ r, row_is event_slug user_id r) (attendances (current w)) = Some (i, row) →
  row !! "state" = Some (VStr state) →
  row !! "visibility" = Some (VStr visibility) →
  let row' := <["updated_at" := VStr now]> row in
  let d' := set_attendances (current w) (<[i := row']> (attendances (current w))) in
  upsert_attendance now event_slug user_id state visibility w
  = (Ok row', World (Some d') (d' :: write_log w)).
Proof.
  intros Hs Hv He Hfind Hst Hvis. rewrite upsert_attendance_ok by done.
  simpl. rewrite Hfind. by rewrite patch_again.
Qed.

(** C7 (idempotent upsert). After a successful [upsert_attendance], a
    second call with the same arguments succeeds, finds the row of the
    pair where the first call left it, and replaces it by the same row
    with a new [updated_at]: every other field of the row is unchanged,
    every other row is unchanged, the numbers of attendance rows overall
    and per event are unchanged, and so is the rest of the store. *)
Theorem C7_upsert_idempotent now1 now2 event_slug user_id state visibility w row1 w1 :
  upsert_attendance now1 event_slug user_id state visibility w = (Ok row1, w1) →
  ∃ i row2 w2,
    upsert_attendance now2 event_slug user_id state visibility w1 = (Ok row2, w2) ∧
    list_find (λ r, row_is event_slug user_id r) (attendances (current w1)) = Some (i, row1) ∧
    row2 = <["updated_at" := VStr now2]> row1 ∧
    (∀ k, k ≠ "updated_at" → row2 !! k = row1 !! k) ∧
    row2 !! "updated_at" = Some (VStr now2) ∧
    attendances (current w2) = <[i := row2]> (attendances (current w1)) ∧
    (∀ j, j ≠ i → attendances (current w2) !! j = attendances (current w1) !! j) ∧
    length (attendances (current w2)) = length (attendances (current w1)) ∧
    (∀ slug, length (filter (λ a, of_event slug a) (attendances (current w2)))
             = length (filter (λ a, of_event slug a) (attendances (current w1)))) ∧
    events (current w2) = events (current w1) ∧
    users (current w2) = users (current w1) ∧
    side_events (current w2) = side_events (current w1) ∧
    meeting_requests (current w2) = meeting_requests (current w1) ∧
    write_log w2 = current w2 :: write_log w1.
Proof.
  intros Hfirst.
  destruct (upsert_attendance_ok_inv _ _ _ _ _ _ _ _ Hfirst) as (Hs & Hv & He).
  rewrite upsert_attendance_ok in Hfirst by done. simpl in Hfirst.
  assert (∃ i, list_find (λ r, row_is event_slug user_id r) (attendances (current w1))
                 = Some (i, row1) ∧
               row1 !! "state" = Some (VStr state) ∧
               row1 !! "visibility" = Some (VStr visibility) ∧
               event_exists event_slug (current w1) = true) as (i & Hfind & Hst & Hvis & He1).
  { destruct (list_find _ (attendances (current w))) as [[i old]|] eqn:Hold.
    - injection Hfirst as <- <-. exists i. simpl. split; [|split; [|split; [|done]]].
      + eapply list_find_replace; [done|].
        rewrite patched_row_is.
        by apply list_find_Some in Hold as (_ & Hp%Is_true_true & _).
      + by rewrite dict_update_lookup, attendance_patch_lookup.
      + by rewrite dict_update_lookup, attendance_patch_lookup.
    - injection Hfirst as <- <-. exists (length (attendances (current w))). simpl.
      split; [|split; [|split; [|done]]].
      + apply list_find_append; [done|]. apply new_attendance_row_is.
      + by rewrite new_attendance_lookup.
      + by rewrite new_attendance_lookup. }
  pose proof (upsert_attendance_again now2 _ _ _ _ w1 i row1 Hs Hv He1 Hfind Hst Hvis)
    as Hsecond. simpl in Hsecond.
  apply list_find_Some in Hfind as Hfound. destruct Hfound as (Hi & _ & _).
  eexists i, _, _. split; [exact Hsecond|]. split; [done|]. split; [done|].
  split; [by intros k Hk; rewrite lookup_insert_ne|].
  split; [by rewrite lookup_insert_eq|].
  split; [done|]. split; [by intros j Hj; simpl; rewrite list_lookup_insert_ne|].
  split; [by simpl; rewrite length_insert|].
  split; [|done].
  intros slug. simpl. apply (filter_length_insert _ _ _ row1); [done|].
  unfold of_event, get. by rewrite lookup_insert_ne.
Qed.

(** ** Renaming an event *)

(** What a successful [update_event] has done. *)
Lemma update_event_ok_inv slug payload w found' w' :
  update_event slug payload w = (Ok found', w') →
  let new_slug := rename_slug slug payload in
  ∃ i found,
    list_find (λ event, slug_is slug event) (events (current w)) = Some (i, found) ∧
    (new_slug = slug ∨ event_exists new_slug (current w) = false) ∧
    found' !! "slug" = Some (VStr new_slug) ∧
    (∀ k, k ∉ ["slug"; "name"; "description"; "website_url"; "start_at"; "end_at";
                "city"; "country"; "tags"] → found' !! k = found !! k) ∧
    let d1 := set_events (current w) (<[i := found']> (events (current w))) in
    let d' := if negb (String.eqb new_slug slug)
              then set_attendances d1 (map (rename_row slug new_slug) (attendances d1))
              else d1 in
    w' = World (Some d') (d' :: write_log w).
Proof.
  unfold update_event, bind, read_data, write_data, raise, ret.
  fold (current w) (rename_slug slug payload). intros H.
  set (new_slug := rename_slug slug payload) in *.
  destruct (list_find _ _) as [[i found]|]; [|done].
  exists i, found. split; [done|].
  destruct (negb (String.eqb new_slug slug) && existsb (slug_is new_slug) (events (current w)))
    eqn:Hcol; [done|].
  destruct (py_join _ _ _) as [[joined|e] w1] eqn:Hj; [|done].
  apply py_join_ok in Hj as ->.
  injection H as <- <-.
  split; [|split; [|split; [|done]]].
  - apply andb_false_iff in Hcol as [Hcol|Hcol]; [left|by right].
    apply negb_false_iff in Hcol. by apply String.eqb_eq.
  - rewrite dict_update_lookup. reflexivity.
  - intros k Hk. rewrite dict_update_lookup. simpl.
    rewrite !lookup_insert, lookup_empty.
    repeat (case_decide; [subst k; exfalso; apply Hk; set_solver|]). done.
Qed.

(** C8 (slug cascade). A successful [update_event] that renames the event
    [slug] to a different [new_slug] (which then no other event has)
    rewrites the [event_slug] of every attendance row of the event to
    [new_slug] and nothing else: the other fields of those rows, the rows
    of other events, the number of rows and the other collections are
    unchanged; the renamed event and the cascade reach the file in one
    [write_data], the only one of the call. *)
Theorem C8_rename_cascade slug payload w found' w' :
  update_event slug payload w = (Ok found', w') →
  rename_slug slug payload ≠ slug →
  let new_slug := rename_slug slug payload in
  let d := current w in
  let d' := current w' in
  data_file w' = Some d' ∧
  write_log w' = d' :: write_log w ∧
  event_exists new_slug d = false ∧
  (∃ i found, list_find (λ event, slug_is slug event) (events d) = Some (i, found) ∧
              events d' = <[i := found']> (events d)) ∧
  get found' "slug" = VStr new_slug ∧
  attendances d' = map (rename_row slug new_slug) (attendances d) ∧
  length (attendances d') = length (attendances d) ∧
  (∀ i row, attendances d !! i = Some row → of_event slug row = true →
     ∃ row', attendances d' !! i = Some row' ∧
             get row' "event_slug" = VStr new_slug ∧
             ∀ k, k ≠ "event_slug" → row' !! k = row !! k) ∧
  (∀ i row, attendances d !! i = Some row → of_event slug row = false →
     attendances d' !! i = Some row) ∧
  users d' = users d ∧
  side_events d' = side_events d ∧
  meeting_requests d' = meeting_requests d.
Proof.
  intros Hok Hne new_slug d d'.
  destruct (update_event_ok_inv _ _ _ _ _ Hok) as (i & found & Hfind & Hcol & Hslug & _ & Hw).
  fold new_slug in Hcol, Hslug, Hw. simpl in Hw.
  assert (String.eqb new_slug slug = false) as Hneb by by apply String.eqb_neq.
  rewrite Hneb in Hw. simpl in Hw.
  unfold d'. rewrite Hw. unfold current at 1. simpl. fold d.
  split; [done|]. split; [done|].
  split; [by destruct Hcol|]. split; [by eauto|].
  split; [unfold get; by rewrite Hslug|]. split; [done|].
  split; [by rewrite length_map|].
  split; [|split; [|done]].
  - intros j row Hj Hev. exists (<["event_slug" := VStr new_slug]> row).
    rewrite list_lookup_fmap, Hj. simpl. unfold rename_row. rewrite Hev.
    split; [done|]. split; [unfold get; by rewrite lookup_insert_eq|].
    intros k Hk. by rewrite lookup_insert_ne.
  - intros j row Hj Hev. rewrite list_lookup_fmap, Hj. simpl.
    unfold rename_row. by rewrite Hev.
Qed.

(** ** Slugs *)

Section Strip.
Context (p : ascii → bool).

Lemma rstrip_with_idem (s : string) :
  Py.rstrip_with p (Py.rstrip_with p s) = Py.rstrip_with p s.
Proof.
  induction s as [|c s IH]; simpl; [done|].
  destruct (Py.rstrip_with p s) as [|c' r] eqn:Hr.
  - destruct (p c) eqn:Hc; simpl; [done|]. by rewrite Hc.
  - simpl in *. by rewrite IH.
Qed.

Lemma lstrip_with_head (s : string) :
  Py.lstrip_with p s = EmptyString ∨
  ∃ c t, Py.lstrip_with p s = String c t ∧ p c = false.
Proof.
  induction s as [|c s IH]; simpl; [by left|].
  destruct (p c) eqn:Hc; [done|]. right. eauto.
Qed.

Lemma rstrip_with_head (c : ascii) (t : string) :
  p c = false → ∃ t', Py.rstrip_with p (String c t) = String c t'.
Proof.
  intros Hc. simpl. destruct (Py.rstrip_with p t); [|by eauto].
  rewrite Hc. eauto.
Qed.

Lemma strip_with_idem (s : string) :
  Py.strip_with p (Py.strip_with p s) = Py.strip_with p s.
Proof.
  unfold Py.strip_with.
  destruct (lstrip_with_head s) as [->|(c & t & -> & Hc)]; [done|].
  destruct (rstrip_with_head c t Hc) as [t' Ht']. rewrite Ht'.
  simpl Py.lstrip_with. rewrite Hc, <- Ht'. apply rstrip_with_idem.
Qed.

Lemma all_chars_lstrip q (s : string) :
  all_chars q s = true → all_chars q (Py.lstrip_with p s) = true.
Proof.
  induction s as [|c s IH]; simpl; [done|].
  intros [Hc Hs]%andb_true_iff. destruct (p c); [by apply IH|].
  simpl. by rewrite Hc, Hs.
Qed.

Lemma all_chars_rstrip q (s : string) :
  all_chars q s = true → all_chars q (Py.rstrip_with p s) = true.
Proof.
  induction s as [|c s IH]; simpl; [done|].
  intros [Hc Hs]%andb_true_iff. specialize (IH Hs).
  destruct (Py.rstrip_with p s) as [|c' r].
  - destruct (p c); simpl; [done|]. by rewrite Hc.
  - simpl in *. by rewrite Hc, IH.
Qed.

Lemma contains_lstrip sub (s : string) :
  Py.contains sub (Py.lstrip_with p s) = true → Py.contains sub s = true.
Proof.
  induction s as [|c s IH]; [done|]. simpl Py.lstrip_with.
  destruct (p c); [|done]. intros H%IH. simpl. rewrite H. apply orb_true_r.
Qed.
End Strip.

Lemma prefix_app (sub a t : string) :
  String.prefix sub a = true → String.prefix sub (a +:+ t) = true.
Proof.
  revert a. induction sub as [|x sub IH]; intros a Hp.
  - by destruct (a +:+ t).
  - destruct a as [|y a]; [done|]. simpl in *.
    destruct (ascii_dec x y); [by apply IH|done].
Qed.

Lemma contains_app_l (sub a t : string) :
  Py.contains sub a = true → Py.contains sub (a +:+ t) = true.
Proof.
  induction a as [|y a IH].
  - simpl. rewrite orb_false_r. intros H. destruct sub; [|done].
    destruct t; done.
  - assert (∀ u, Py.contains sub (String y u)
                 = String.prefix sub (String y u) || Py.contains sub u) as E
      by reflexivity.
    change (String y a +:+ t) with (String y (a +:+ t)). rewrite !E.
    intros [H|H]%orb_true_iff.
    + pose proof (prefix_app sub (String y a) t H) as Hp.
      change (String y a +:+ t) with (String y (a +:+ t)) in Hp. by rewrite Hp.
    + rewrite (IH H). apply orb_true_r.
Qed.

Lemma rstrip_with_prefix p (s : string) : ∃ t, s = Py.rstrip_with p s +:+ t.
Proof.
  induction s as [|c s [t IH]]; simpl; [by exists EmptyString|].
  destruct (Py.rstrip_with p s) as [|c' r].
  - destruct (p c); [by eexists|]. exists t. exact (f_equal (String c) IH).
  - exists t. exact (f_equal (String c) IH).
Qed.

Lemma contains_rstrip p sub (s : string) :
  Py.contains sub (Py.rstrip_with p s) = true → Py.contains sub s = true.
Proof.
  intros H. destruct (rstrip_with_prefix p s) as [t Ht]. rewrite Ht.
  by apply contains_app_l.
Qed.

Lemma prefix_dashes (c c' : ascii) (s : string) :
  String.prefix "--" (String c (String c' s)) = Ascii.eqb c "-" && Ascii.eqb c' "-".
Proof.
  change (String.prefix "--" (String c (String c' s)))
    with (if ascii_dec "-" c
          then if ascii_dec "-" c' then String.prefix "" s else false
          else false).
  destruct (ascii_dec "-" c) as [<-|Hc].
  - destruct (ascii_dec "-" c') as [<-|Hc']; [by destruct s|].
    symmetry. apply Ascii.eqb_neq. congruence.
  - symmetry. apply andb_false_iff. left. apply Ascii.eqb_neq. congruence.
Qed.

Lemma contains_dashes_single (c : ascii) :
  Py.contains "--" (String c EmptyString) = false.
Proof.
  change (Py.contains "--" (String c EmptyString))
    with ((if ascii_dec "-" c then false else false) || (false || false)).
  by destruct (ascii_dec "-" c).
Qed.

(** One round of the loop of [_slugify] never lengthens the string and
    shortens it when there is a double dash; slug characters stay slug
    characters. *)
Lemma replace_dashes_facts (s : string) :
  let Q s :=
    String.length (Py.replace_dashes s) ≤ String.length s ∧
    (Py.contains "--" s = true →
     String.length (Py.replace_dashes s) < String.length s) ∧
    (all_chars slug_char s = true → all_chars slug_char (Py.replace_dashes s) = true) in
  Q s ∧ ∀ c, Q (String c s).
Proof.
  intros Q. induction s as [|c' s [IHs IHc]].
  - split; [by repeat split|]. intros c. unfold Q. rewrite contains_dashes_single.
    simpl. repeat split; done || lia.
  - split; [apply IHc|]. intros c.
    destruct IHs as (Hle & _ & Hall).
    destruct (IHc c') as (Hle' & Hlt' & Hall').
    assert (Py.replace_dashes (String c (String c' s))
            = if Ascii.eqb c "-" && Ascii.eqb c' "-"
              then String "-" (Py.replace_dashes s)
              else String c (Py.replace_dashes (String c' s))) as E1 by reflexivity.
    assert (Py.contains "--" (String c (String c' s))
            = String.prefix "--" (String c (String c' s))
              || Py.contains "--" (String c' s)) as E2 by reflexivity.
    unfold Q. rewrite E1, E2, prefix_dashes. clear E1 E2.
    destruct (Ascii.eqb c "-" && Ascii.eqb c' "-") eqn:Hdd.
    + cbn [String.length all_chars]. split; [lia|]. split; [lia|].
      intros [_ [_ H]%andb_true_iff]%andb_true_iff.
      rewrite (Hall H). done.
    + cbn [String.length all_chars orb].
      change (String.length (String c' s)) with (S (String.length s)) in Hle', Hlt'.
      split; [lia|]. split.
      * intros H. apply Hlt' in H. lia.
      * intros [Hc H]%andb_true_iff. rewrite Hc. by apply Hall'.
Qed.

(** The fuel of [collapse_dashes] is enough: the loop of [_slugify] has
    ended when it runs out. *)
Lemma collapse_dashes_done (fuel : nat) (s : string) :
  String.length s ≤ fuel → Py.contains "--" (collapse_dashes fuel s) = false.
Proof.
  revert s. induction fuel as [|fuel IH]; intros s Hlen; simpl.
  - destruct s; [done|simpl in Hlen; lia].
  - destruct (Py.contains "--" s) eqn:Hc; [|done].
    apply IH. destruct (replace_dashes_facts s) as [(_ & Hlt & _) _].
    specialize (Hlt Hc). lia.
Qed.

Lemma collapse_dashes_chars (fuel : nat) (s : string) :
  all_chars slug_char s = true → all_chars slug_char (collapse_dashes fuel s) = true.
Proof.
  revert s. induction fuel as [|fuel IH]; intros s Hs; simpl; [done|].
  destruct (Py.contains "--" s); [|done].
  apply IH. by apply (replace_dashes_facts s).
Qed.

Lemma slugify_char_ok (c : ascii) :
  Py.is_ascii c = true →
  slug_char (if Py.isalnum c then Py.lower_char c else "-"%char) = true.
Proof.
  destruct c as [[] [] [] [] [] [] [] []]; intros H;
    reflexivity || (vm_compute in H; discriminate H).
Qed.

Lemma map_chars_all (q r : ascii → bool) f (s : string) :
  (∀ c, q c = true → r (f c) = true) →
  all_chars q s = true → all_chars r (Py.map_chars f s) = true.
Proof.
  intros H. induction s as [|c s IH]; simpl; [done|].
  intros [Hc Hs]%andb_true_iff. by rewrite (H c Hc), IH.
Qed.

(** The normal form of a slug: no two dashes in a row and no dash at
    either end; made of lower-case letters, digits and dashes when the
    text it comes from is ASCII. *)
Lemma slugify_normal (value : string) :
  Py.contains "--" (_slugify value) = false ∧
  Py.strip_char "-" (_slugify value) = _slugify value ∧
  (all_chars Py.is_ascii value = true → all_chars slug_char (_slugify value) = true).
Proof.
  unfold _slugify, Py.strip_char.
  set (safe := Py.map_chars _ (Py.strip value)).
  split; [|split].
  - destruct (Py.contains "--" (Py.strip_with _ _)) eqn:H; [|done].
    apply contains_rstrip, contains_lstrip in H.
    by rewrite collapse_dashes_done in H.
  - apply strip_with_idem.
  - intros Hascii.
    assert (all_chars slug_char safe = true) as Hsafe.
    { apply (map_chars_all Py.is_ascii); [apply slugify_char_ok|].
      by apply all_chars_rstrip, all_chars_lstrip. }
    by apply all_chars_rstrip, all_chars_lstrip, collapse_dashes_chars.
Qed.

(** ** Creating an event *)

(** What [create_event] does with a payload that passes its checks. *)
Lemma create_event_ok payload w :
  create_slug payload ≠ "" →
  event_exists (create_slug payload) (current w) = false →
  text_field payload "name" ≠ "" →
  let event := new_event (create_slug payload) payload in
  let d' := set_events (current w) (events (current w) ++ [event]) in
  create_event payload w = (Ok event, World (Some d') (d' :: write_log w)).
Proof.
  intros Hslug Hfree Hname. unfold create_event, bind, read_data, write_data, raise, ret.
  fold (create_slug payload) (current w).
  apply String.eqb_neq in Hslug, Hname. rewrite Hslug.
  unfold event_exists in Hfree. rewrite Hfree.
  assert (∀ slug, get (new_event slug payload) "name" = VStr (text_field payload "name"))
    as -> by reflexivity.
  simpl. by rewrite Hname.
Qed.

Lemma new_event_slug_is slug payload : slug_is slug (new_event slug payload) = true.
Proof.
  unfold slug_is.
  assert (get (new_event slug payload) "slug" = VStr slug) as -> by reflexivity.
  apply String.eqb_refl.
Qed.

(** C9, as stated, fails: the store [Seed.data_taken] has no event named
    [Foo Bar], and [create_event] of the payload still raises, because
    an event with another name holds the slug [foo-bar]. *)
Lemma C9_no_such_name_yet_refused :
  (∀ event, event ∈ events Seed.data_taken → get event "name" ≠ VStr "Foo Bar") ∧
  create_event Seed.foo_bar (World (Some Seed.data_taken) [])
  = (Raise (ValueError "Event slug already exists"), World (Some Seed.data_taken) []).
Proof.
  split; [|vm_compute; reflexivity].
  intros event Hev. apply list_elem_of_In in Hev. simpl in Hev.
  destruct Hev as [<-|[]]. vm_compute. discriminate.
Qed.

(** C9 (create scenario), amended. From a store in which no event has the
    slug [foo-bar], [create_event] of [{slug: "", name: "Foo Bar"}]
    succeeds: the new event has the slug [foo-bar], the normalisation of
    its name (a slug has no two dashes in a row and no dash at either
    end, and the slug of an ASCII text is made of the letters [a]-[z],
    digits and dashes), is appended to the events and written in one
    snapshot.
    After that, [create_event] of [{name: "Foo Bar"}] raises, the slug
    being taken, and writes nothing. *)
Theorem C9_create_scenario w :
  event_exists "foo-bar" (current w) = false →
  _slugify "Foo Bar" = "foo-bar" ∧
  (∀ value, Py.contains "--" (_slugify value) = false ∧
            Py.strip_char "-" (_slugify value) = _slugify value ∧
            (all_chars Py.is_ascii value = true →
             all_chars slug_char (_slugify value) = true)) ∧
  ∃ event w1,
    create_event Seed.foo_bar w = (Ok event, w1) ∧
    get event "slug" = VStr "foo-bar" ∧
    get event "name" = VStr "Foo Bar" ∧
    events (current w1) = events (current w) ++ [event] ∧
    write_log w1 = current w1 :: write_log w ∧
    create_event Seed.foo_bar_again w1
    = (Raise (ValueError "Event slug already exists"), w1).
Proof.
  intros Hfree. split; [vm_compute; reflexivity|]. split; [apply slugify_normal|].
  assert (create_slug Seed.foo_bar = "foo-bar") as Hslug by (vm_compute; reflexivity).
  assert (create_slug Seed.foo_bar_again = "foo-bar") as Hslug' by (vm_compute; reflexivity).
  eexists _, _. split.
  { apply create_event_ok.
    - rewrite Hslug. discriminate.
    - by rewrite Hslug.
    - vm_compute. discriminate. }
  rewrite Hslug.
  split; [reflexivity|]. split; [vm_compute; reflexivity|].
  split; [reflexivity|]. split; [reflexivity|].
  apply create_event_taken.
  - rewrite Hslug'. unfold event_exists, current. simpl.
    rewrite existsb_app. simpl. rewrite new_event_slug_is. by rewrite orb_true_r.
  - rewrite Hslug'. discriminate.
Qed.

(** ** The theorems at work on the seed *)

(** The slug of the seed event is free for nobody else: the scenario of
    [create_event] runs from the seed. *)
Lemma C9_create_scenario_witness :
  all_chars slug_char (_slugify "  Rocq & Friends 2026!  ") = true ∧
  ∃ event w1,
    create_event Seed.foo_bar Seed.initial = (Ok event, w1) ∧
    get event "slug" = VStr "foo-bar" ∧
    get event "name" = VStr "Foo Bar" ∧
    events (current w1) = events (current Seed.initial) ++ [event] ∧
    write_log w1 = current w1 :: write_log Seed.initial ∧
    create_event Seed.foo_bar_again w1
    = (Raise (ValueError "Event slug already exists"), w1).
Proof.
  assert (event_exists "foo-bar" (current Seed.initial) = false) as Hfree
    by (vm_compute; reflexivity).
  split.
  - refine (proj2 (proj2 (proj1 (proj2 (C9_create_scenario Seed.initial Hfree))
                            "  Rocq & Friends 2026!  ")) _).
    vm_compute. reflexivity.
  - exact (proj2 (proj2 (C9_create_scenario Seed.initial Hfree))).
Defined.

(** Four failing calls on the seed, one per operation. *)
Lemma C6_errors_have_no_effect_witness :
  snd (create_event Seed.foo_bar (World (Some Seed.data_taken) []))
    = World (Some Seed.data_taken) [] ∧
  snd (update_event "no-such-event" Seed.rename_payload Seed.initial) = Seed.initial ∧
  snd (delete_event "no-such-event" Seed.initial) = Seed.initial ∧
  snd (upsert_attendance "2026-02-08T12:05:00Z" "event-a" "free" "MAYBE" "PUBLIC" Seed.initial)
    = Seed.initial.
Proof.
  destruct C6_errors_have_no_effect as (Hc & Hu & Hd & Ha & _).
  split; [|split; [|split]].
  - apply (Hc Seed.foo_bar (World (Some Seed.data_taken) [])
             (ValueError "Event slug already exists")).
    vm_compute. reflexivity.
  - apply (Hu "no-such-event" Seed.rename_payload Seed.initial
             (ValueError "Event not found")).
    vm_compute. reflexivity.
  - apply (Hd "no-such-event" Seed.initial (ValueError "Event not found")).
    vm_compute. reflexivity.
  - apply (Ha "2026-02-08T12:05:00Z" "event-a" "free" "MAYBE" "PUBLIC" Seed.initial
             (ValueError "Invalid attendance state")).
    vm_compute. reflexivity.
Defined.

(** [free] changes the attendance to [ATTENDING]/[PRIVATE] at 12:05 and
    sends the same form again at 12:06. *)
Lemma C7_upsert_idempotent_witness :
  ∃ i row2 w2,
    upsert_attendance "2026-02-08T12:06:00Z" "event-a" "free" "ATTENDING" "PRIVATE"
      Seed.after_upsert = (Ok row2, w2) ∧
    list_find (λ r, row_is "event-a" "free" r) (attendances (current Seed.after_upsert))
      = Some (i, Seed.row_upserted) ∧
    row2 = <["updated_at" := VStr "2026-02-08T12:06:00Z"]> Seed.row_upserted ∧
    length (attendances (current w2)) = 2.
Proof.
  destruct (C7_upsert_idempotent "2026-02-08T12:05:00Z" "2026-02-08T12:06:00Z"
              "event-a" "free" "ATTENDING" "PRIVATE"
              Seed.initial Seed.row_upserted Seed.after_upsert)
    as (i & row2 & w2 & H1 & H2 & H3 & _ & _ & _ & _ & H4 & _).
  - vm_compute. reflexivity.
  - exists i, row2, w2. rewrite H4. repeat split; assumption || reflexivity.
Defined.

(** Renaming [event-a] to [event-b] on the seed. *)
Lemma C8_rename_cascade_witness :
  map (λ a, get a "event_slug")
      (attendances (current (snd (update_event "event-a" Seed.rename_payload Seed.initial))))
  = [VStr "event-b"; VStr "event-b"] ∧
  length (write_log (snd (update_event "event-a" Seed.rename_payload Seed.initial))) = 1.
Proof.
  pose proof (C8_rename_cascade "event-a" Seed.rename_payload Seed.initial
                (match fst (update_event "event-a" Seed.rename_payload Seed.initial) with
                 | Ok found => found
                 | Raise _ => ∅
                 end)
                (snd (update_event "event-a" Seed.rename_payload Seed.initial))) as H.
  simpl in H. destruct H as (_ & Hlog & _ & _ & _ & Hatt & _).
  - vm_compute. reflexivity.
  - vm_compute. discriminate.
  - split; [rewrite Hatt; vm_compute; reflexivity|].
    rewrite Hlog. reflexivity.
Defined.

(** The company filter [" STRIPE "] on the seed, for [admin]: one of the
    two visible rows is left. *)
Lemma C5_filters_narrow_witness :
  total_visible (visible_attendees Seed.data "event-a" (Some Seed.admin)
                   (Some " STRIPE ") None None) = 1 ∧
  total_visible (visible_attendees Seed.data "event-a" (Some Seed.admin)
                   (Some " STRIPE ") None None)
  ≤ total_visible (visible_attendees Seed.data "event-a" (Some Seed.admin) None None None).
Proof.
  split; [vm_compute; reflexivity|].
  exact (proj1 (proj2 (proj2 (proj2 (proj2
    (C5_filters_narrow Seed.data "event-a" (Some Seed.admin) (Some " STRIPE ") None None)))))).
Defined.

(** * Further properties of the storage module *)

(** ** The stable ascending sort *)

Section SortAscFacts.
Context {A : Type} (key : A -> string * string).

#[local] Instance asc_trans : Transitive (asc key).
Proof. intros x y z Hxy Hyz. unfold asc in *. by eapply key_leb_trans. Qed.





Lemma insert_asc_head (x : A) (l : list A) :
  Forall (asc key x) l → insert_asc key x l = x :: l.
Proof.
  destruct 1 as [|y l Hy _]; simpl; [done|].
  unfold asc, key_leb in Hy. apply negb_true_iff in Hy. by rewrite Hy.
Qed.

(** Events with one and the same key keep the order of the store. *)
Lemma sort_asc_same_key (l : list A) (k : string * string) :
  Forall (λ x, key x = k) l → sort_asc key l = l.
Proof.
  induction 1 as [|x l Hx Hl IH]; simpl; [done|].
  rewrite IH. apply insert_asc_head.
  eapply Forall_impl; [exact Hl|]. intros y Hy. unfold asc.
  rewrite Hx, Hy. apply key_leb_refl.
Qed.
End SortAscFacts.

(** ** Reading operations *)

Lemma first_match_Some {A} (p : A → bool) (l : list A) (x : A) :
  first_match p l = Some x ↔
  ∃ i, l !! i = Some x ∧ p x = true ∧ ∀ j y, l !! j = Some y → j < i → p y = false.
Proof.
  unfold first_match. split.
  - destruct (list_find _ l) as [[i y]|] eqn:Hf; [|done]. intros [= <-].
    apply list_find_Some in Hf as (Hi & Hp%Is_true_true & Hb).
    exists i. split; [done|]. split; [done|]. intros j z Hj Hlt.
    apply not_true_is_false. intros Hz%Is_true_true. by eapply Hb.
  - intros (i & Hi & Hp & Hb).
    assert (list_find (λ x, p x) l = Some (i, x)) as ->; [|done].
    apply list_find_Some. split; [done|]. split; [by apply Is_true_true|].
    intros j y Hj Hlt Hy%Is_true_true. by rewrite (Hb j y Hj Hlt) in Hy.
Qed.

Lemma first_match_None {A} (p : A → bool) (l : list A) :
  first_match p l = None ↔ existsb p l = false.
Proof.
  unfold first_match. split.
  - destruct (list_find _ l) as [[i y]|] eqn:Hf; [done|]. intros _.
    apply list_find_None in Hf. rewrite Forall_forall in Hf.
    apply not_true_is_false. intros (x & Hx%list_elem_of_In & Hp)%existsb_exists.
    apply (Hf x Hx). by apply Is_true_true.
  - intros H. by rewrite (existsb_false_find _ _ H).
Qed.



(** ** Normalising a search text *)

Lemma lower_char_idem (c : ascii) : Py.lower_char (Py.lower_char c) = Py.lower_char c.
Proof. destruct c as [[] [] [] [] [] [] [] []]; reflexivity. Qed.

Lemma isspace_lower_char (c : ascii) : Py.isspace (Py.lower_char c) = Py.isspace c.
Proof. destruct c as [[] [] [] [] [] [] [] []]; reflexivity. Qed.

Lemma lower_idem (s : string) : Py.lower (Py.lower s) = Py.lower s.
Proof.
  unfold Py.lower. induction s as [|c s IH]; simpl; [done|].
  by rewrite lower_char_idem, IH.
Qed.

Lemma lstrip_lower (s : string) :
  Py.lstrip_with Py.isspace (Py.lower s) = Py.lower (Py.lstrip_with Py.isspace s).
Proof.
  unfold Py.lower. induction s as [|c s IH]; simpl; [done|].
  rewrite isspace_lower_char. by destruct (Py.isspace c).
Qed.

Lemma rstrip_lower (s : string) :
  Py.rstrip_with Py.isspace (Py.lower s) = Py.lower (Py.rstrip_with Py.isspace s).
Proof.
  unfold Py.lower. induction s as [|c s IH]; simpl; [done|].
  rewrite IH, isspace_lower_char.
  destruct (Py.rstrip_with Py.isspace s); simpl; [|done].
  by destruct (Py.isspace c).
Qed.

Lemma strip_lower (s : string) : Py.strip (Py.lower s) = Py.lower (Py.strip s).
Proof. unfold Py.strip, Py.strip_with. by rewrite lstrip_lower, rstrip_lower. Qed.

(** Lower-casing and stripping a text that went through both changes
    nothing. *)
Lemma lower_strip_idem (s : string) :
  Py.lower (Py.strip (Py.lower (Py.strip s))) = Py.lower (Py.strip s).
Proof.
  rewrite strip_lower, lower_idem. unfold Py.strip. by rewrite strip_with_idem.
Qed.

Lemma needle_Some (s : string) : needle (Some s) = Py.lower (Py.strip s).
Proof. unfold needle, opt_or_empty. by destruct (String.eqb_spec s "") as [->|]. Qed.

Lemma needle_idem (x : option string) : needle (Some (needle x)) = needle x.
Proof.
  rewrite needle_Some. destruct x as [s|]; [|done].
  rewrite needle_Some. apply lower_strip_idem.
Qed.

(** X2 (search texts are normalised). The query and city of
    [search_events] and the company and title filters of
    [list_visible_attendees] count up to case and surrounding white
    space: a text and its stripped, lower-cased form give the same
    result, and an empty or blank text the result of no text at all. *)
Theorem X2_search_texts_normalised :
  (∀ query city, search_events query city
                 = search_events (Some (needle query)) (Some (needle city))) ∧
  (∀ event_slug viewer company title state,
     list_visible_attendees event_slug viewer company title state
     = list_visible_attendees event_slug viewer
         (Some (needle company)) (Some (needle title)) state) ∧
  (∀ x, needle x = "" →
        search_events x None = search_events None None ∧
        ∀ event_slug viewer state,
          list_visible_attendees event_slug viewer x None state
          = list_visible_attendees event_slug viewer None None state) ∧
  needle (Some "   ") = "" ∧ needle (Some " STRIPE ") = needle (Some "stripe").
Proof.
  split; [|split; [|split; [|split; reflexivity]]].
  - intros query city. unfold search_events. by rewrite !needle_idem.
  - intros event_slug viewer company title state.
    unfold list_visible_attendees, visible_attendees, visible_list.
    by rewrite !needle_idem.
  - intros x Hx. split.
    + unfold search_events. by rewrite Hx.
    + intros event_slug viewer state.
      unfold list_visible_attendees, visible_attendees, visible_list. by rewrite Hx.
Qed.

(** ** The catalog: creating and looking up *)

Lemma event_exists_elem (slug : string) (d : store) :
  event_exists slug d = true ↔
  slug ∈ map (λ event, Py.str (get event "slug")) (events d).
Proof.
  unfold event_exists. rewrite existsb_exists, list_elem_of_fmap. split.
  - intros (e & He%list_elem_of_In & Hs). exists e. split; [|done].
    symmetry. by apply String.eqb_eq.
  - intros (e & -> & He). exists e. split; [by apply list_elem_of_In|].
    apply String.eqb_refl.
Qed.

Lemma event_exists_false (slug : string) (d : store) :
  event_exists slug d = false ↔
  slug ∉ map (λ event, Py.str (get event "slug")) (events d).
Proof.
  rewrite <- event_exists_elem. by destruct (event_exists slug d).
Qed.

(** What a successful [create_event] has checked and done. *)
Lemma create_event_ok_inv payload w event w1 :
  create_event payload w = (Ok event, w1) →
  create_slug payload ≠ "" ∧
  event_exists (create_slug payload) (current w) = false ∧
  text_field payload "name" ≠ "" ∧
  event = new_event (create_slug payload) payload ∧
  w1 = World (Some (set_events (current w) (events (current w) ++ [event])))
             (set_events (current w) (events (current w) ++ [event]) :: write_log w).
Proof.
  unfold create_event, bind, read_data, write_data, raise, ret.
  fold (create_slug payload) (current w) (event_exists (create_slug payload) (current w)).
  assert (∀ slug, get (new_event slug payload) "name" = VStr (text_field payload "name"))
    as -> by reflexivity.
  destruct (String.eqb_spec (create_slug payload) "") as [He|Hslug]; [done|].
  destruct (event_exists (create_slug payload) (current w)); [done|].
  simpl. destruct (String.eqb_spec (text_field payload "name") "") as [Hn|Hname]; [done|].
  simpl. intros [= <- <-]. done.
Qed.

Lemma first_match_cons {A} (p : A → bool) (x : A) (l : list A) :
  first_match p (x :: l) = if p x then Some x else first_match p l.
Proof.
  unfold first_match. simpl. destruct (p x); simpl; [done|].
  by destruct (list_find _ l) as [[i y]|].
Qed.

Lemma first_match_app {A} (p : A → bool) (l k : list A) :
  first_match p (l ++ k)
  = match first_match p l with Some x => Some x | None => first_match p k end.
Proof.
  induction l as [|x l IH]; [done|].
  change ((x :: l) ++ k) with (x :: (l ++ k)). rewrite !first_match_cons, IH.
  by destruct (p x).
Qed.

Lemma current_World (d : store) (log : list store) : current (World (Some d) log) = d.
Proof. reflexivity. Qed.

Lemma events_set_events (d : store) (l : list dict) : events (set_events d l) = l.
Proof. reflexivity. Qed.

Lemma get_event_by_slug_eq slug w :
  get_event_by_slug slug w = (Ok (first_match (slug_is slug) (events (current w))), w).
Proof. reflexivity. Qed.

(** X3 ([create_event], then [get_event_by_slug]). After a successful
    [create_event] the event is found under its slug, which is the
    normalisation of the payload's slug or, failing that, name, was free
    before, and is not empty; the event is appended to the events, whose
    earlier lookups give what they gave before, and the call has written
    one snapshot. *)
Theorem X3_create_then_get payload w event w1 :
  create_event payload w = (Ok event, w1) →
  get_event_by_slug (create_slug payload) w1 = (Ok (Some event), w1) ∧
  get_event_by_slug (create_slug payload) w = (Ok None, w) ∧
  get event "slug" = VStr (create_slug payload) ∧
  create_slug payload ≠ "" ∧
  get event "name" = VStr (Py.strip (Py.str (get_or payload "name" (VStr "")))) ∧
  get event "name" ≠ VStr "" ∧
  events (current w1) = events (current w) ++ [event] ∧
  (∀ slug found, get_event_by_slug slug w = (Ok (Some found), w) →
                 get_event_by_slug slug w1 = (Ok (Some found), w1)) ∧
  write_log w1 = current w1 :: write_log w.
Proof.
  intros (Hslug & Hfree & Hname & -> & ->)%create_event_ok_inv.
  rewrite !get_event_by_slug_eq, !current_World, !events_set_events.
  assert (first_match (slug_is (create_slug payload)) (events (current w)) = None) as Hnone
    by by apply first_match_None.
  split; [|split; [by rewrite Hnone|]].
  { rewrite first_match_app, Hnone, first_match_cons. by rewrite new_event_slug_is. }
  split; [reflexivity|]. split; [done|]. split; [reflexivity|].
  split; [unfold text_field in Hname; intros [= H]; by apply Hname|].
  split; [reflexivity|]. split; [|reflexivity].
  intros slug found. rewrite !get_event_by_slug_eq, !current_World, !events_set_events.
  intros [= H]. by rewrite first_match_app, H.
Qed.

Lemma X3_create_then_get_witness :
  ∃ event w1,
    create_event Seed.foo_bar Seed.initial = (Ok event, w1) ∧
    get_event_by_slug "foo-bar" w1 = (Ok (Some event), w1) ∧
    get_event_by_slug "event-a" w1 = (Ok (Some Seed.event_a), w1).
Proof.
  destruct (create_event Seed.foo_bar Seed.initial) as [[event|e] w1] eqn:H;
    [|vm_compute in H; discriminate H].
  exists event, w1. split; [done|].
  destruct (X3_create_then_get _ _ _ _ H) as (Hget & _ & _ & _ & _ & _ & _ & Hold & _).
  split; [exact Hget|]. apply Hold. vm_compute. reflexivity.
Defined.

(** X4 ([create_event] keeps slugs unique). If no two events of the store
    have the same slug, that is still so after a successful
    [create_event]. *)
Theorem X4_create_keeps_unique_slugs payload w event w1 :
  unique_slugs (current w) →
  create_event payload w = (Ok event, w1) →
  unique_slugs (current w1).
Proof.
  intros Huniq (Hslug & Hfree & Hname & -> & ->)%create_event_ok_inv.
  unfold unique_slugs. rewrite current_World, events_set_events, map_app.
  apply NoDup_app. split; [done|]. split; [|apply NoDup_singleton].
  intros s Hs Hnew. apply list_elem_of_singleton in Hnew.
  assert (get (new_event (create_slug payload) payload) "slug"
          = VStr (create_slug payload)) as E by reflexivity.
  rewrite E in Hnew. simpl in Hnew. subst s.
  by apply event_exists_false in Hfree.
Qed.

Lemma X4_create_keeps_unique_slugs_witness :
  unique_slugs (current (snd (create_event Seed.foo_bar Seed.initial))).
Proof.
  apply (X4_create_keeps_unique_slugs Seed.foo_bar Seed.initial
           (new_event "foo-bar" Seed.foo_bar)).
  - unfold unique_slugs. simpl. apply NoDup_singleton.
  - vm_compute. reflexivity.
Defined.

(** ** The catalog: updating *)

(** A successful [update_event], with the record it has written. *)
Lemma update_event_result slug payload w found' w' :
  update_event slug payload w = (Ok found', w') →
  ∃ i found joined,
    list_find (λ event, slug_is slug event) (events (current w)) = Some (i, found) ∧
    py_join "," (get_or found "tags" (VList [])) w = (Ok joined, w) ∧
    (rename_slug slug payload = slug ∨
     event_exists (rename_slug slug payload) (current w) = false) ∧
    found' = dict_update found (event_patch (rename_slug slug payload) payload found joined) ∧
    events (current w') = <[i := found']> (events (current w)) ∧
    attendances (current w')
    = (if String.eqb (rename_slug slug payload) slug then attendances (current w)
       else map (rename_row slug (rename_slug slug payload)) (attendances (current w))) ∧
    users (current w') = users (current w) ∧
    side_events (current w') = side_events (current w) ∧
    meeting_requests (current w') = meeting_requests (current w) ∧
    write_log w' = current w' :: write_log w.
Proof.
  unfold update_event, bind, read_data, write_data, raise, ret.
  fold (current w) (rename_slug slug payload). intros H.
  destruct (list_find _ _) as [[i found]|]; [|done].
  destruct (negb (String.eqb (rename_slug slug payload) slug)
            && existsb (slug_is (rename_slug slug payload)) (events (current w)))
    eqn:Hcol; [done|].
  destruct (py_join _ _ _) as [[joined|e] w1] eqn:Hj; [|done].
  pose proof (py_join_ok _ _ _ _ _ Hj) as ->.
  exists i, found, joined. injection H as <- <-.
  split; [done|]. split; [done|]. split.
  { apply andb_false_iff in Hcol as [Hcol|Hcol]; [left|by right].
    apply negb_false_iff in Hcol. by apply String.eqb_eq. }
  split; [reflexivity|].
  rewrite current_World. by destruct (String.eqb (rename_slug slug payload) slug).
Qed.

Lemma event_patch_slug new_slug payload found joined :
  event_patch new_slug payload found joined !! "slug" = Some (VStr new_slug).
Proof. reflexivity. Qed.

Lemma NoDup_insert_same {A} (l : list A) (i : nat) (x y : A) :
  NoDup l → l !! i = Some x → (y = x ∨ y ∉ l) → NoDup (<[i := y]> l).
Proof.
  intros Hl Hi [->|Hy]; [by rewrite list_insert_id|].
  rewrite <- (take_drop_middle l i x Hi) in Hl, Hy.
  rewrite insert_take_drop by (by eapply lookup_lt_Some).
  apply NoDup_app in Hl as (H1 & H2 & H3). apply NoDup_cons in H3 as [_ H3].
  apply NoDup_app. split; [done|]. split.
  - intros z Hz Hin. apply elem_of_cons in Hin as [->|Hin].
    + apply Hy, elem_of_app. by left.
    + apply (H2 z Hz). by right.
  - apply NoDup_cons. split; [|done]. intros Hin. apply Hy, elem_of_app.
    right. by right.
Qed.

(** X5 ([update_event] keeps slugs unique). If no two events of the store
    have the same slug, that is still so after a successful
    [update_event], renaming or not. *)
Theorem X5_update_keeps_unique_slugs slug payload w found' w' :
  unique_slugs (current w) →
  update_event slug payload w = (Ok found', w') →
  unique_slugs (current w').
Proof.
  intros Huniq (i & found & joined & Hfind & _ & Hcol & -> & Hev & _)%update_event_result.
  unfold unique_slugs in *. rewrite Hev, list_fmap_insert.
  apply list_find_Some in Hfind as (Hi & Hs%Is_true_true & _).
  unfold slug_is in Hs. apply String.eqb_eq in Hs.
  unfold get at 1. rewrite dict_update_lookup, event_patch_slug. simpl.
  eapply NoDup_insert_same; [done|by rewrite list_lookup_fmap, Hi|].
  simpl. rewrite Hs. destruct Hcol as [->|Hfree]; [by left|right].
  by apply event_exists_false.
Qed.

Lemma X5_update_keeps_unique_slugs_witness :
  unique_slugs (current (snd (update_event "event-a" Seed.rename_payload Seed.initial))).
Proof.
  apply (X5_update_keeps_unique_slugs "event-a" Seed.rename_payload Seed.initial
           (match fst (update_event "event-a" Seed.rename_payload Seed.initial) with
            | Ok found => found
            | Raise _ => ∅
            end)).
  - unfold unique_slugs. simpl. apply NoDup_singleton.
  - vm_compute. reflexivity.
Defined.

(** ** The catalog: deleting *)

Lemma existsb_filter_negb {A} (p : A → bool) (l : list A) :
  existsb p (filter (λ x, negb (p x)) l) = false.
Proof.
  apply not_true_is_false. intros (x & Hx%list_elem_of_In & Hp)%existsb_exists.
  apply list_elem_of_filter in Hx as [Hn _]. rewrite Hp in Hn. done.
Qed.

Lemma Forall_filter_negb {A} (p : A → bool) (l : list A) :
  Forall (λ x, p x = false) (filter (λ x, negb (p x)) l).
Proof.
  apply Forall_forall. intros x [Hx _]%list_elem_of_filter.
  by destruct (p x).
Qed.

Lemma filter_none {A} (p : A → bool) (l : list A) :
  Forall (λ x, p x = false) l → filter (λ x, p x) l = [].
Proof.
  induction 1 as [|x l Hx Hl IH]; [done|].
  rewrite filter_cons_False; [done|]. rewrite Hx. exact id.
Qed.

(** What a successful [delete_event] has checked and done. *)
Lemma delete_event_ok_inv slug w u w' :
  delete_event slug w = (Ok u, w') →
  event_exists slug (current w) = true ∧
  events (current w') = filter (λ e, negb (slug_is slug e)) (events (current w)) ∧
  attendances (current w') = filter (λ a, negb (of_event slug a)) (attendances (current w)) ∧
  side_events (current w') = filter (λ s, negb (of_event slug s)) (side_events (current w)) ∧
  meeting_requests (current w')
  = filter (λ m, negb (of_event slug m)) (meeting_requests (current w)) ∧
  users (current w') = users (current w) ∧
  write_log w' = current w' :: write_log w.
Proof.
  unfold delete_event, bind, read_data, write_data, raise, ret.
  fold (current w). cbn [events set_events].
  destruct (Nat.eqb_spec (length (filter (λ e, negb (slug_is slug e)) (events (current w))))
              (length (events (current w)))) as [Heq|Hne]; [done|].
  intros [= <- <-]. split; [|done].
  destruct (event_exists slug (current w)) eqn:Hex; [done|].
  unfold event_exists in Hex. by rewrite (existsb_false_filter _ _ Hex) in Hne.
Qed.

Lemma get_attendance_for_user_eq event_slug user_id w :
  get_attendance_for_user event_slug user_id w
  = (Ok (first_match (row_is event_slug user_id) (attendances (current w))), w).
Proof. reflexivity. Qed.

(** X6 ([delete_event] cascades). A successful [delete_event] removes an
    event that existed; afterwards no event has the slug and no
    attendance, side event or meeting request refers to it, so that
    [get_event_by_slug] and [get_attendance_for_user] find nothing
    under the slug. The call writes one snapshot. *)
Theorem X6_delete_cascades slug w u w' :
  delete_event slug w = (Ok u, w') →
  event_exists slug (current w) = true ∧
  event_exists slug (current w') = false ∧
  unreferenced slug (current w') ∧
  get_event_by_slug slug w' = (Ok None, w') ∧
  (∀ user_id, get_attendance_for_user slug user_id w' = (Ok None, w')) ∧
  (∀ viewer company title state,
     visible_attendees (current w') slug viewer company title state
     = Listing [] 0 (attendee_limit viewer)) ∧
  write_log w' = current w' :: write_log w.
Proof.
  intros (Hex & Hev & Hatt & Hside & Hmeet & _ & Hlog)%delete_event_ok_inv.
  assert (event_exists slug (current w') = false) as Hgone.
  { unfold event_exists. rewrite Hev. apply existsb_filter_negb. }
  assert (Forall (λ a, of_event slug a = false) (attendances (current w'))) as Hno.
  { rewrite Hatt. apply Forall_filter_negb. }
  split; [done|]. split; [done|]. split.
  { split; [done|]. split; [rewrite Hside|rewrite Hmeet]; apply Forall_filter_negb. }
  split; [rewrite get_event_by_slug_eq; f_equal; f_equal; by apply first_match_None|].
  split; [|split; [|done]].
  - intros user_id. rewrite get_attendance_for_user_eq. f_equal. f_equal.
    apply first_match_None. apply not_true_is_false.
    intros (x & Hx%list_elem_of_In & Hp)%existsb_exists.
    rewrite Forall_forall in Hno. unfold row_is in Hp.
    apply andb_true_iff in Hp as [Hp _]. by rewrite (Hno x Hx) in Hp.
  - intros viewer company title state.
    unfold visible_attendees, visible_list, sorted_rows.
    rewrite (filter_none _ _ Hno). simpl. by rewrite take_nil.
Qed.

Lemma X6_delete_cascades_witness :
  event_exists "event-a" (current (snd (delete_event "event-a" Seed.initial))) = false ∧
  unreferenced "event-a" (current (snd (delete_event "event-a" Seed.initial))).
Proof.
  destruct (X6_delete_cascades "event-a" Seed.initial tt
              (snd (delete_event "event-a" Seed.initial))) as (_ & H1 & H2 & _).
  - vm_compute. reflexivity.
  - split; assumption.
Defined.

Lemma first_match_filter {A} (p q : A → bool) (l : list A) :
  (∀ x, p x = true → q x = true) →
  first_match p (filter (λ x, q x) l) = first_match p l.
Proof.
  intros Hpq. induction l as [|x l IH]; [done|].
  rewrite filter_cons, (first_match_cons p x l).
  destruct (decide (q x)) as [Hq|Hq].
  - by rewrite first_match_cons, IH.
  - destruct (p x) eqn:Hp; [|done].
    exfalso. apply Hq. by rewrite (Hpq x Hp).
Qed.

(** X7 ([delete_event] leaves the rest alone). A successful
    [delete_event] keeps every other event, and every attendance, side
    event and meeting request of another event, in their order; the
    users are untouched, and slugs that were unique stay unique. *)
Theorem X7_delete_frame slug w u w' :
  delete_event slug w = (Ok u, w') →
  (∀ other, other ≠ slug →
     filter (λ e, slug_is other e) (events (current w'))
       = filter (λ e, slug_is other e) (events (current w)) ∧
     filter (λ a, of_event other a) (attendances (current w'))
       = filter (λ a, of_event other a) (attendances (current w)) ∧
     filter (λ s, of_event other s) (side_events (current w'))
       = filter (λ s, of_event other s) (side_events (current w)) ∧
     filter (λ m, of_event other m) (meeting_requests (current w'))
       = filter (λ m, of_event other m) (meeting_requests (current w)) ∧
     get_event_by_slug other w' = (Ok (first_match (slug_is other) (events (current w))), w')) ∧
  events (current w') `sublist_of` events (current w) ∧
  attendances (current w') `sublist_of` attendances (current w) ∧
  users (current w') = users (current w) ∧
  (unique_slugs (current w) → unique_slugs (current w')).
Proof.
  intros (Hex & Hev & Hatt & Hside & Hmeet & Husers & Hlog)%delete_event_ok_inv.
  assert (∀ other (l : list dict), other ≠ slug →
            filter (λ a, of_event other a) (filter (λ a, negb (of_event slug a)) l)
            = filter (λ a, of_event other a) l) as Hframe.
  { intros other l Hne. rewrite list_filter_filter. apply list_filter_iff.
    intros a. split; [tauto|]. intros Ha. split; [done|].
    apply Is_true_true in Ha. unfold of_event in *. apply py_eq_str_r in Ha.
    rewrite Ha. simpl. apply Is_true_true, negb_true_iff, String.eqb_neq. done. }
  assert (∀ other, other ≠ slug →
            filter (λ e, slug_is other e) (events (current w'))
            = filter (λ e, slug_is other e) (events (current w))) as Hevents.
  { intros other Hne. rewrite Hev, list_filter_filter. apply list_filter_iff.
    intros e. split; [tauto|]. intros He. split; [done|].
    apply Is_true_true in He. unfold slug_is in *. apply String.eqb_eq in He.
    rewrite He. apply Is_true_true, negb_true_iff, String.eqb_neq. done. }
  split; [|split; [|split; [|split; [done|]]]].
  - intros other Hne. rewrite Hatt, Hside, Hmeet, !Hframe by done.
    split; [by apply Hevents|]. split; [done|]. split; [done|]. split; [done|].
    rewrite get_event_by_slug_eq, Hev. f_equal. f_equal.
    apply first_match_filter. intros e He.
    unfold slug_is in *. apply String.eqb_eq in He. rewrite He.
    by apply negb_true_iff, String.eqb_neq.
  - rewrite Hev. apply sublist_filter.
  - rewrite Hatt. apply sublist_filter.
  - unfold unique_slugs. rewrite Hev. intros Hu.
    refine (sublist_NoDup _ _ Hu _). apply fmap_sublist, sublist_filter.
Qed.

Lemma X7_delete_frame_witness :
  users (current (snd (delete_event "event-a" Seed.initial))) = users Seed.data ∧
  events (current (snd (delete_event "event-a" Seed.initial))) `sublist_of` events Seed.data.
Proof.
  destruct (X7_delete_frame "event-a" Seed.initial tt
              (snd (delete_event "event-a" Seed.initial))) as (_ & H1 & _ & H2 & _).
  - vm_compute. reflexivity.
  - split; [exact H2|exact H1].
Defined.

Lemma X2_search_texts_normalised_witness :
  search_events (Some "   ") None = search_events None None ∧
  list_visible_attendees "event-a" None (Some " STRIPE ") None None
  = list_visible_attendees "event-a" None (Some (needle (Some " STRIPE "))) (Some (needle None)) None.
Proof.
  destruct X2_search_texts_normalised as (_ & Hvis & Hblank & _).
  split.
  - apply (Hblank (Some "   ")). reflexivity.
  - apply Hvis.
Defined.

(** ** The ledger: writing and reading back *)

(** A successful [upsert_attendance]: either the first row of the pair
    was patched in place, or there was none and a row was appended. *)
Lemma upsert_attendance_result now event_slug user_id state visibility w row w1 :
  upsert_attendance now event_slug user_id state visibility w = (Ok row, w1) →
  ((∃ i old,
      list_find (λ r, row_is event_slug user_id r) (attendances (current w)) = Some (i, old) ∧
      row = dict_update old (attendance_patch state visibility now) ∧
      attendances (current w1) = <[i := row]> (attendances (current w))) ∨
   (list_find (λ r, row_is event_slug user_id r) (attendances (current w)) = None ∧
    row = new_attendance event_slug user_id state visibility now ∧
    attendances (current w1) = attendances (current w) ++ [row])) ∧
  events (current w1) = events (current w) ∧
  users (current w1) = users (current w) ∧
  side_events (current w1) = side_events (current w) ∧
  meeting_requests (current w1) = meeting_requests (current w) ∧
  write_log w1 = current w1 :: write_log w.
Proof.
  intros H.
  destruct (upsert_attendance_ok_inv _ _ _ _ _ _ _ _ H) as (Hs & Hv & He).
  rewrite upsert_attendance_ok in H by done. cbv zeta in H.
  destruct (list_find _ _) as [[i old]|] eqn:Hfind; injection H as <- <-.
  - rewrite current_World. split; [|done]. left. by exists i, old.
  - rewrite current_World. split; [|done]. by right.
Qed.

Lemma row_is_fields event_slug user_id (row : dict) :
  row_is event_slug user_id row = true ↔
  get row "event_slug" = VStr event_slug ∧ get row "user_id" = VStr user_id.
Proof. unfold row_is, of_event. by rewrite andb_true_iff, !py_eq_str_r. Qed.

(** X8 ([upsert_attendance], then [get_attendance_for_user]). After a
    successful [upsert_attendance] the ledger answers the pair with the
    row the call returned; that row carries the event, the user, the
    state, the visibility and the timestamp of the call, the state and
    visibility being of the vocabulary, and the event one that exists. *)
Theorem X8_upsert_then_get now event_slug user_id state visibility w row w1 :
  upsert_attendance now event_slug user_id state visibility w = (Ok row, w1) →
  get_attendance_for_user event_slug user_id w1 = (Ok (Some row), w1) ∧
  get row "event_slug" = VStr event_slug ∧
  get row "user_id" = VStr user_id ∧
  get row "state" = VStr state ∧
  get row "visibility" = VStr visibility ∧
  get row "updated_at" = VStr now ∧
  state ∈ valid_states ∧ visibility ∈ valid_visibilities ∧
  event_exists event_slug (current w1) = true.
Proof.
  intros H.
  destruct (upsert_attendance_ok_inv _ _ _ _ _ _ _ _ H) as (Hs & Hv & He).
  destruct (upsert_attendance_result _ _ _ _ _ _ _ _ H) as (Hcase & Hev & _).
  assert (list_find (λ r, row_is event_slug user_id r) (attendances (current w1))
            = Some (match list_find (λ r, row_is event_slug user_id r)
                            (attendances (current w)) with
                    | Some (i, _) => i
                    | None => length (attendances (current w))
                    end, row) ∧
          row_is event_slug user_id row = true ∧
          get row "state" = VStr state ∧ get row "visibility" = VStr visibility ∧
          get row "updated_at" = VStr now) as (Hfind & Hrow & Hst & Hvis & Hnow).
  { destruct Hcase as [(i & old & Hold & -> & ->)|(Hnone & -> & ->)].
    - rewrite Hold. pose proof Hold as (_ & Hp%Is_true_true & _)%list_find_Some.
      assert (row_is event_slug user_id
                (dict_update old (attendance_patch state visibility now)) = true) as Hp'
        by by rewrite patched_row_is.
      split; [by eapply list_find_replace|]. split; [done|].
      unfold get. by rewrite !dict_update_lookup, !attendance_patch_lookup.
    - rewrite Hnone. split; [apply list_find_append; [done|apply new_attendance_row_is]|].
      split; [apply new_attendance_row_is|].
      unfold get. by rewrite !new_attendance_lookup. }
  apply row_is_fields in Hrow as [He1 Hu1].
  rewrite get_attendance_for_user_eq. unfold first_match. rewrite Hfind. simpl.
  unfold event_exists. rewrite Hev. done.
Qed.

Lemma X8_upsert_then_get_witness :
  get_attendance_for_user "event-a" "free" Seed.after_upsert
  = (Ok (Some Seed.row_upserted), Seed.after_upsert).
Proof.
  refine (proj1 (X8_upsert_then_get "2026-02-08T12:05:00Z" "event-a" "free"
                   "ATTENDING" "PRIVATE" Seed.initial Seed.row_upserted Seed.after_upsert _)).
  vm_compute. reflexivity.
Defined.

(** X9 ([upsert_attendance] keeps one row per pair). If the store has at
    most one attendance row for every pair of an event and a user, that
    is still so after a successful [upsert_attendance]. *)
Theorem X9_upsert_keeps_unique_pairs now event_slug user_id state visibility w row w1 :
  unique_pairs (current w) →
  upsert_attendance now event_slug user_id state visibility w = (Ok row, w1) →
  unique_pairs (current w1).
Proof.
  intros Huniq H.
  destruct (upsert_attendance_result _ _ _ _ _ _ _ _ H) as (Hcase & _).
  destruct Hcase as [(i & old & Hold & -> & Hatt)|(Hnone & -> & Hatt)].
  - apply list_find_Some in Hold as (Hi & _ & _).
    assert (∀ j r, attendances (current w1) !! j = Some r →
              ∃ r0, attendances (current w) !! j = Some r0 ∧
                    ∀ e u, row_is e u r = row_is e u r0) as Hsame.
    { intros j r. rewrite Hatt. destruct (decide (i = j)) as [<-|Hne].
      - rewrite list_lookup_insert_eq by (by eapply lookup_lt_Some).
        intros [= <-]. exists old. split; [done|]. intros e u. apply patched_row_is.
      - rewrite list_lookup_insert_ne by done. intros Hj. by exists r. }
    intros e u a b ra rb Ha Hb Hra Hrb.
    destruct (Hsame a ra Ha) as (ra0 & Ha0 & Ea).
    destruct (Hsame b rb Hb) as (rb0 & Hb0 & Eb).
    rewrite Ea in Hra. rewrite Eb in Hrb. by eapply (Huniq e u a b).
  - assert (∀ j r e u, attendances (current w) !! j = Some r →
              row_is e u r = true →
              row_is e u (new_attendance event_slug user_id state visibility now) = true →
              False) as Hfresh.
    { intros j r e u Hj Hr [He Hu]%row_is_fields.
      unfold get in He, Hu. rewrite new_attendance_lookup in He, Hu. simpl in He, Hu.
      injection He as <-. injection Hu as <-.
      apply list_find_None in Hnone. rewrite Forall_forall in Hnone.
      apply (Hnone r); [by eapply list_elem_of_lookup_2|by apply Is_true_true]. }
    intros e u a b ra rb Ha Hb Hra Hrb. rewrite Hatt in Ha, Hb.
    apply lookup_app_Some in Ha as [Ha|[Hla Ha]];
      apply lookup_app_Some in Hb as [Hb|[Hlb Hb]].
    + by eapply (Huniq e u a b).
    + apply list_lookup_singleton_Some in Hb as [_ <-]. exfalso. by eapply Hfresh.
    + apply list_lookup_singleton_Some in Ha as [_ <-]. exfalso. by eapply Hfresh.
    + apply list_lookup_singleton_Some in Ha as [Ha _].
      apply list_lookup_singleton_Some in Hb as [Hb _]. lia.
Qed.

Lemma X9_upsert_keeps_unique_pairs_witness : unique_pairs Seed.data_upserted.
Proof.
  apply (X9_upsert_keeps_unique_pairs "2026-02-08T12:05:00Z" "event-a" "free"
           "ATTENDING" "PRIVATE" Seed.initial Seed.row_upserted Seed.after_upsert).
  - intros e u i j ri rj Hi Hj Hri Hrj.
    apply row_is_fields in Hri as [_ Hri], Hrj as [_ Hrj].
    destruct i as [|[|i]], j as [|[|j]]; try done;
      cbn in Hi, Hj; simplify_eq; vm_compute in Hri, Hrj; congruence.
  - vm_compute. reflexivity.
Defined.

(** X10 ([upsert_attendance] touches one row). A successful
    [upsert_attendance] leaves the events, users, side events and meeting
    requests alone and writes one snapshot. If the ledger had no row for
    the pair, the new row is appended behind the untouched old rows. If
    it had one, the first such row is replaced in place: the number of
    rows is the same, every other row is untouched, and the row keeps
    every field but [state], [visibility] and [updated_at]. *)
Theorem X10_upsert_frame now event_slug user_id state visibility w row w1 :
  upsert_attendance now event_slug user_id state visibility w = (Ok row, w1) →
  events (current w1) = events (current w) ∧
  users (current w1) = users (current w) ∧
  side_events (current w1) = side_events (current w) ∧
  meeting_requests (current w1) = meeting_requests (current w) ∧
  write_log w1 = current w1 :: write_log w ∧
  (get_attendance_for_user event_slug user_id w = (Ok None, w) →
   attendances (current w1) = attendances (current w) ++ [row]) ∧
  (∀ old, get_attendance_for_user event_slug user_id w = (Ok (Some old), w) →
     length (attendances (current w1)) = length (attendances (current w)) ∧
     (∃ i, attendances (current w) !! i = Some old ∧
           attendances (current w1) = <[i := row]> (attendances (current w))) ∧
     (∀ k, k ∉ ["state"; "visibility"; "updated_at"] → row !! k = old !! k)).
Proof.
  intros H.
  destruct (upsert_attendance_result _ _ _ _ _ _ _ _ H)
    as (Hcase & Hev & Hus & Hside & Hmeet & Hlog).
  split; [done|]. split; [done|]. split; [done|]. split; [done|]. split; [done|].
  rewrite !get_attendance_for_user_eq. unfold first_match. split.
  - intros [= Hnone].
    destruct Hcase as [(i & old & Hold & _)|(_ & _ & Hatt)]; [by rewrite Hold in Hnone|done].
  - intros old' [= Hsome].
    destruct Hcase as [(i & old & Hold & -> & Hatt)|(Hnone & _)];
      [|by rewrite Hnone in Hsome].
    rewrite Hold in Hsome. simpl in Hsome. injection Hsome as <-.
    apply list_find_Some in Hold as (Hi & _ & _).
    split; [by rewrite Hatt, length_insert|]. split; [by eauto|].
    intros k Hk. rewrite dict_update_lookup, attendance_patch_lookup.
    repeat (case_decide; [subst k; exfalso; apply Hk; set_solver|]). done.
Qed.

Lemma X10_upsert_frame_witness :
  length (attendances (current Seed.after_upsert)) = length (attendances (current Seed.initial)) ∧
  Seed.row_upserted !! "user_id" = Seed.row_free !! "user_id".
Proof.
  destruct (X10_upsert_frame "2026-02-08T12:05:00Z" "event-a" "free"
              "ATTENDING" "PRIVATE" Seed.initial Seed.row_upserted Seed.after_upsert)
    as (_ & _ & _ & _ & _ & _ & Hold).
  - vm_compute. reflexivity.
  - destruct (Hold Seed.row_free) as (Hlen & _ & Hkeep).
    + vm_compute. reflexivity.
    + split; [exact Hlen|]. apply Hkeep. set_solver.
Defined.
